(** * croissant-excel-translate: the translation pipeline of [src/App.tsx]

    A shallow embedding of the component [App] of [src/App.tsx]: the
    classifier and post-processor of [onSend], the bounded list of
    [addTranslation], the handler [onStop] and the row loop of
    [handleFileUpload].

    - JavaScript strings are sequences of UTF-16 code units ([jsstring]);
      [length] is the property [.length].
    - The built-ins the code calls but does not define ([Number],
      [toString] on numbers, [toUpperCase], [toLowerCase]) and the engine of
      [@mlc-ai/web-llm] are the fields of two classes, [JSHost] and
      [EngineInterface]; every theorem holds for all their instances.
    - React state is kept twice: [pending] is the state with every queued
      update applied, [rendered] is the state of the last committed render,
      the one the handlers of that render closed over. A [Commit] copies
      the first into the second and runs the effect of lines 59-61.
    - The row loop is suspended at its [await]s; what reaches the
      application meanwhile (commits, a click on Stop) is given by a
      [schedule], over which the theorems quantify. *)

From Stdlib Require Import String Ascii DecimalString List Bool Arith NArith ZArith Lia Sorted.
Import ListNotations.

(** ** JavaScript strings *)

Definition jsstring := list N.

(** An ASCII literal as a JavaScript string. *)
Definition js (s : string) : jsstring :=
  map N_of_ascii (list_ascii_of_string s).

Definition LF : N := 10.
Definition SPACE : N := 32.

Fixpoint str_eqb (a b : jsstring) : bool :=
  match a, b with
  | [], [] => true
  | x :: a', y :: b' => N.eqb x y && str_eqb a' b'
  | _, _ => false
  end.

Definition is_empty {A : Type} (s : list A) : bool :=
  match s with [] => true | _ => false end.

(** [s.split(sep)] for a separator of one code unit: the pieces between the
    separators, [""] for the empty string. *)
Fixpoint split (sep : N) (s : jsstring) : list jsstring :=
  match s with
  | [] => [[]]
  | c :: s' =>
      if N.eqb c sep then [] :: split sep s'
      else match split sep s' with
           | p :: ps => (c :: p) :: ps
           | [] => [[c]]
           end
  end.

(** *** Character classes of the regular expressions (no [u] flag: one code
    unit at a time) *)

Definition in_range (lo hi c : N) : bool := N.leb lo c && N.leb c hi.

(** [[0-9]] *)
Definition is_digit (c : N) : bool := in_range 48 57 c.

(** [\w] is [[A-Za-z0-9_]]; [\W] its complement. *)
Definition is_word (c : N) : bool :=
  in_range 65 90 c || in_range 97 122 c || is_digit c || N.eqb c 95.

(** [\s]: WhiteSpace and LineTerminator of ECMAScript. *)
Definition is_space (c : N) : bool :=
  in_range 9 13 c || N.eqb c 32 || N.eqb c 160 || N.eqb c 5760
  || in_range 8192 8202 c || N.eqb c 8232 || N.eqb c 8233 || N.eqb c 8239
  || N.eqb c 8287 || N.eqb c 12288 || N.eqb c 65279.

(** [[0-9\s\W]] *)
Definition is_digit_space_nonword (c : N) : bool :=
  is_digit c || is_space c || negb (is_word c).

(** [/^[0-9\s\W]+$/.test(s)], line 155. *)
Definition only_digits_space_nonword (s : jsstring) : bool :=
  negb (is_empty s) && forallb is_digit_space_nonword s.

(** [[aeiouy]] under the [i] flag: the six letters in either case. *)
Definition is_vowel (c : N) : bool :=
  existsb (N.eqb c) [97; 101; 105; 111; 117; 121; 65; 69; 73; 79; 85; 89]%N.

(** [/[aeiouy]/i.test(s)], line 160. *)
Definition has_vowel (s : jsstring) : bool := existsb is_vowel s.

(** [[.,!?]] *)
Definition is_punct (c : N) : bool :=
  N.eqb c 46 || N.eqb c 44 || N.eqb c 33 || N.eqb c 63.

(** [/[.,!?]/.test(s)], line 241. *)
Definition has_punct (s : jsstring) : bool := existsb is_punct s.

(** [s.replace(/[.,!?]/g, '')], line 243. *)
Definition strip_punct (s : jsstring) : jsstring :=
  filter (fun c => negb (is_punct c)) s.

(** The word [été]: two accented vowels around a [t]. *)
Definition ete : jsstring := [233; 116; 233]%N.

(** ** The paragraph loop of [onSend], lines 186-226

    [model] stands for lines 194-218: what one non-empty paragraph becomes
    ([inl]), or the exception the call throws ([inr]); it threads a state
    [W]. [rest] is empty exactly when [i < paragraphs.length - 1] fails. *)
Fixpoint paragraphs_loop {W E : Type}
    (model : jsstring -> W -> (jsstring + E) * W)
    (paragraphs : list jsstring) (assistantMessage : jsstring) (w : W)
    : (jsstring + E) * W :=
  match paragraphs with
  | [] => (inl assistantMessage, w)
  | paragraph :: rest =>
      if is_empty paragraph then
        paragraphs_loop model rest (assistantMessage ++ [LF]) w
      else
        match model paragraph w with
        | (inr error, w') => (inr error, w')
        | (inl translatedParagraph, w') =>
            if negb (is_empty rest) then
              paragraphs_loop model rest
                (assistantMessage ++ translatedParagraph ++ [LF]) w'
            else
              paragraphs_loop model rest
                (assistantMessage ++ translatedParagraph) w'
        end
  end.

(** The model replaced by the identity function: every paragraph comes back
    as it went in, nothing is thrown, no state is touched. *)
Definition identity_model (paragraph : jsstring) (w : unit)
    : (jsstring + Empty_set) * unit :=
  (inl paragraph, w).

(** Lines 181-226 with the identity model: split on newlines, reassemble. *)
Definition reassemble_identity (text : jsstring) : (jsstring + Empty_set) * unit :=
  paragraphs_loop identity_model (split LF text) [] tt.

(** [pieces.join(sep)]. *)
Fixpoint join (sep : N) (pieces : list jsstring) : jsstring :=
  match pieces with
  | [] => []
  | [p] => p
  | p :: rest => p ++ [sep] ++ join sep rest
  end.

(** The text is empty or its last code unit is a newline: the last
    paragraph of [text.split('\n')] is the empty one. *)
Definition ends_blank (text : jsstring) : bool :=
  match rev text with
  | [] => true
  | c :: _ => N.eqb c LF
  end.

(** ** The host: built-ins of the language and the engine *)

(** The text of a thrown error, as ['' + error] gives it. *)
Definition exn := jsstring.

(** The built-ins [onSend] and the row loop rely on. *)
Class JSHost := {
  (** the type [number] *)
  number : Type;
  (** [n.toString()] *)
  Number_toString : number -> jsstring;
  (** the truth value of a number in a condition: false for [0], [-0], [NaN] *)
  Number_truthy : number -> bool;
  (** [isNaN(Number(s))] for a string [s] *)
  isNaN_Number : jsstring -> bool;
  (** [s.toUpperCase()] *)
  toUpperCase : jsstring -> jsstring;
  (** [s.toLowerCase()] *)
  toLowerCase : jsstring -> jsstring
}.

(** The argument of [chat.completions.create], lines 205-210: [stream: true],
    one message of role [user] with this [content], temperature 0.3. *)
Record ChatCompletionRequest := {
  content : jsstring;
  temperature_tenths : N;
  max_gen_len : nat
}.

(** [EngineInterface] of [@mlc-ai/web-llm] with [CreateWebWorkerEngine] and
    [hasModelInCache], over a state [World] (the worker, the model, its
    conversation). An operation returns its value or the error it throws.
    A completion is the list of the [delta.content] of its chunks,
    [None] for a chunk without one. *)
Class EngineInterface := {
  World : Type;
  Engine : Type;
  CreateWebWorkerEngine : World -> (Engine + exn) * World;
  hasModelInCache : World -> (bool + exn) * World;
  resetChat : Engine -> World -> (unit + exn) * World;
  chat_completions_create :
    Engine -> ChatCompletionRequest -> World
    -> (list (option jsstring) + exn) * World;
  runtimeStatsText : Engine -> World -> (jsstring + exn) * World;
  interruptGenerate : Engine -> World -> World
}.

(** The calls made on the engine, in order: kept beside the state so that
    "the engine was not called" can be said. *)
Inductive engine_call :=
| CallCreateEngine
| CallHasModelInCache
| CallResetChat
| CallCreate (request : ChatCompletionRequest)
| CallRuntimeStats
| CallInterrupt.

(** [prompt.ts] *)
Definition promptSentenceEnglishToFrench : jsstring :=
  js "Pouvez-vous traduire ce texte en francais sans ajouter d'informations ? Voici le texte :".
Definition promptEnglishToFrench : jsstring :=
  js "Traduisez ces mots en fran" ++ [231%N] ++ js "ais. " ++ [201%N]
  ++ js "crivez simplement la traduction  :".

Section App.
Context {host : JSHost} {web_llm : EngineInterface}.

(** ** Data *)

(** A cell as [onSend] takes it: [string | number]. A cell of a row is
    [option value], [None] for [undefined] (a hole, a column past the end). *)
Inductive value :=
| Num (n : number)
| Str (s : jsstring).

Definition row := list (option value).
Definition grid := list row.

(** An entry of [translations], line 39. *)
Record translation := {
  input : value;
  output : jsstring;
  id : nat
}.

(** The state variables of [App], lines 33-48 ([progress] and
    [progressPercentage], which only the loading bar reads, are left out). *)
Record ui_state := {
  engine : option Engine;
  isFetching : bool;
  isGenerating : bool;
  runtimeStats : jsstring;
  translations : list translation;
  modelInCache : option bool;
  errorBrowserMessage : option jsstring;
  sourceColumn : jsstring;
  destinationColumn : jsstring;
  startRow : Z;
  currentRow : nat;
  totalRows : nat
}.

Record app := {
  pending : ui_state;
  rendered : ui_state;
  isGeneratingRef : bool;
  world : World;
  calls : list engine_call
}.

(** *** State setters: a [setX(v)] queues an update, seen in [pending] *)

Definition with_pending (f : ui_state -> ui_state) (st : app) : app :=
  {| pending := f (pending st); rendered := rendered st;
     isGeneratingRef := isGeneratingRef st; world := world st;
     calls := calls st |}.

Definition setEngine (v : option Engine) : app -> app :=
  with_pending (fun u =>
    {| engine := v; isFetching := isFetching u; isGenerating := isGenerating u;
       runtimeStats := runtimeStats u; translations := translations u;
       modelInCache := modelInCache u;
       errorBrowserMessage := errorBrowserMessage u;
       sourceColumn := sourceColumn u;
       destinationColumn := destinationColumn u; startRow := startRow u;
       currentRow := currentRow u; totalRows := totalRows u |}).

Definition setIsFetching (v : bool) : app -> app :=
  with_pending (fun u =>
    {| engine := engine u; isFetching := v; isGenerating := isGenerating u;
       runtimeStats := runtimeStats u; translations := translations u;
       modelInCache := modelInCache u;
       errorBrowserMessage := errorBrowserMessage u;
       sourceColumn := sourceColumn u;
       destinationColumn := destinationColumn u; startRow := startRow u;
       currentRow := currentRow u; totalRows := totalRows u |}).

Definition setIsGenerating (v : bool) : app -> app :=
  with_pending (fun u =>
    {| engine := engine u; isFetching := isFetching u; isGenerating := v;
       runtimeStats := runtimeStats u; translations := translations u;
       modelInCache := modelInCache u;
       errorBrowserMessage := errorBrowserMessage u;
       sourceColumn := sourceColumn u;
       destinationColumn := destinationColumn u; startRow := startRow u;
       currentRow := currentRow u; totalRows := totalRows u |}).

Definition setRuntimeStats (v : jsstring) : app -> app :=
  with_pending (fun u =>
    {| engine := engine u; isFetching := isFetching u;
       isGenerating := isGenerating u;
       runtimeStats := v; translations := translations u;
       modelInCache := modelInCache u;
       errorBrowserMessage := errorBrowserMessage u;
       sourceColumn := sourceColumn u;
       destinationColumn := destinationColumn u; startRow := startRow u;
       currentRow := currentRow u; totalRows := totalRows u |}).

(** [setTranslations(f)] with an updater function, line 66. *)
Definition setTranslations
    (f : list translation -> list translation) : app -> app :=
  with_pending (fun u =>
    {| engine := engine u; isFetching := isFetching u;
       isGenerating := isGenerating u;
       runtimeStats := runtimeStats u; translations := f (translations u);
       modelInCache := modelInCache u;
       errorBrowserMessage := errorBrowserMessage u;
       sourceColumn := sourceColumn u;
       destinationColumn := destinationColumn u; startRow := startRow u;
       currentRow := currentRow u; totalRows := totalRows u |}).

Definition setModelInCache (v : option bool) : app -> app :=
  with_pending (fun u =>
    {| engine := engine u; isFetching := isFetching u;
       isGenerating := isGenerating u;
       runtimeStats := runtimeStats u; translations := translations u;
       modelInCache := v;
       errorBrowserMessage := errorBrowserMessage u;
       sourceColumn := sourceColumn u;
       destinationColumn := destinationColumn u; startRow := startRow u;
       currentRow := currentRow u; totalRows := totalRows u |}).

Definition setErrorBrowserMessage (v : option jsstring) : app -> app :=
  with_pending (fun u =>
    {| engine := engine u; isFetching := isFetching u;
       isGenerating := isGenerating u;
       runtimeStats := runtimeStats u; translations := translations u;
       modelInCache := modelInCache u;
       errorBrowserMessage := v;
       sourceColumn := sourceColumn u;
       destinationColumn := destinationColumn u; startRow := startRow u;
       currentRow := currentRow u; totalRows := totalRows u |}).

Definition setCurrentRow (v : nat) : app -> app :=
  with_pending (fun u =>
    {| engine := engine u; isFetching := isFetching u;
       isGenerating := isGenerating u;
       runtimeStats := runtimeStats u; translations := translations u;
       modelInCache := modelInCache u;
       errorBrowserMessage := errorBrowserMessage u;
       sourceColumn := sourceColumn u;
       destinationColumn := destinationColumn u; startRow := startRow u;
       currentRow := v; totalRows := totalRows u |}).

Definition setTotalRows (v : nat) : app -> app :=
  with_pending (fun u =>
    {| engine := engine u; isFetching := isFetching u;
       isGenerating := isGenerating u;
       runtimeStats := runtimeStats u; translations := translations u;
       modelInCache := modelInCache u;
       errorBrowserMessage := errorBrowserMessage u;
       sourceColumn := sourceColumn u;
       destinationColumn := destinationColumn u; startRow := startRow u;
       currentRow := currentRow u; totalRows := v |}).

(** [isGeneratingRef.current = v], line 292. *)
Definition setRef (v : bool) (st : app) : app :=
  {| pending := pending st; rendered := rendered st; isGeneratingRef := v;
     world := world st; calls := calls st |}.

(** ** Asynchronous code: a state and exception monad over [app] *)

Definition M (A : Type) : Type := app -> (A + exn) * app.

Definition ret {A : Type} (a : A) : M A := fun st => (inl a, st).

Definition bind {A B : Type} (c : M A) (k : A -> M B) : M B :=
  fun st =>
    match c st with
    | (inl a, st') => k a st'
    | (inr error, st') => (inr error, st')
    end.

(** A state change that cannot throw. *)
Definition exec (f : app -> app) : M unit := fun st => (inl tt, f st).

Notation "x <- c ;; k" := (bind c (fun x => k))
  (at level 61, c at next level, right associativity).
Notation "c ;; k" := (bind c (fun _ => k))
  (at level 61, right associativity).

(** An awaited operation of the engine: it is recorded in [calls] and runs
    on [world]. *)
Definition call {A : Type} (c : engine_call)
    (op : World -> (A + exn) * World) : M A :=
  fun st =>
    let (r, w) := op (world st) in
    (r, {| pending := pending st; rendered := rendered st;
           isGeneratingRef := isGeneratingRef st; world := w;
           calls := calls st ++ [c] |}).

(** The computation [c] leaves the part [proj] of the application as it
    found it, whether it returns or throws. *)
Definition keeps {X A : Type} (proj : app -> X) (c : M A) : Prop :=
  forall st : app, proj (snd (c st)) = proj st.

(** ** What happens around the running loop *)

(** A commit of React: the component is rendered with the pending state,
    the handlers of the page become those of this render, and the effect of
    lines 59-61 runs when [isGenerating] differs from the previous render's:
    [isGeneratingRef.current = isGenerating]. *)
Definition commit (st : app) : app :=
  {| pending := pending st;
     rendered := pending st;
     isGeneratingRef :=
       if Bool.eqb (isGenerating (pending st)) (isGenerating (rendered st))
       then isGeneratingRef st
       else isGenerating (pending st);
     world := world st;
     calls := calls st |}.

(** [onStop], lines 261-269, of the render on the page. *)
Definition onStop (st : app) : app :=
  match engine (rendered st) with
  | None => st
  | Some e =>
      let st1 := setIsGenerating false st in
      {| pending := pending st1; rendered := rendered st1;
         isGeneratingRef := isGeneratingRef st1;
         world := interruptGenerate e (world st1);
         calls := calls st1 ++ [CallInterrupt] |}
  end.

(** What can happen while the loop is suspended: React commits, or the user
    presses Stop (the button is [disabled={!isGenerating}], line 393). *)
Inductive event :=
| Commit
| StopClick.

Definition deliver1 (ev : event) (st : app) : app :=
  match ev with
  | Commit => commit st
  | StopClick => if isGenerating (rendered st) then onStop st else st
  end.

Definition deliver (evs : list event) (st : app) : app :=
  fold_left (fun s ev => deliver1 ev s) evs st.

(** The events around one row: while [onSend] awaits the loading of the
    engine, while it awaits the engine's answers, and between the end of the
    row and the test at the top of the next iteration. The code after
    [await onSend(value)] runs in the continuation of the promise, so a
    React that batches updates and renders in a later task delivers nothing
    at the boundary; one that renders inside [setState] may commit there. *)
Record interleaving := {
  during_load : list event;
  during_generation : list event;
  at_boundary : list event
}.

Definition schedule := nat -> interleaving.

(** ** [loadEngine], lines 125-140 *)
Definition loadEngine (evs : list event) : M Engine :=
  exec (setIsFetching true) ;;
  exec (deliver evs) ;;
  e <- call CallCreateEngine CreateWebWorkerEngine ;;
  exec (setIsFetching false) ;;
  exec (setEngine (Some e)) ;;
  isInCache <- call CallHasModelInCache hasModelInCache ;;
  exec (setModelInCache (Some isInCache)) ;;
  ret e.

(** ** [onSend], lines 145-256 *)

(** Lines 213-218: the chunks' [delta.content] concatenated, a chunk
    without one skipped. *)
Definition concat_deltas (chunks : list (option jsstring)) : jsstring :=
  fold_left
    (fun translatedParagraph curDelta =>
       match curDelta with
       | Some d => translatedParagraph ++ d
       | None => translatedParagraph
       end)
    chunks [].

(** Lines 194-218: the prompt by the number of words, one request, the
    stream read to its end. *)
Definition translateParagraph (loadedEngine : Engine) (paragraph : jsstring)
    : M jsstring :=
  let words := split SPACE paragraph in
  let prompt :=
    if 5 <? length words then promptSentenceEnglishToFrench
    else promptEnglishToFrench in
  let request :=
    {| content := prompt ++ paragraph;
       temperature_tenths := 3;
       max_gen_len := length paragraph + 50 |} in
  completion <- call (CallCreate request)
                     (chat_completions_create loadedEngine request) ;;
  ret (concat_deltas completion).

Definition isUpperCase (str : jsstring) : bool := str_eqb str (toUpperCase str).
Definition isLowerCase (str : jsstring) : bool := str_eqb str (toLowerCase str).

(** Lines 228-232. *)
Definition lengthGuard (inputUser assistantMessage : jsstring) : jsstring :=
  if 3 * length inputUser <? length assistantMessage then inputUser
  else assistantMessage.

(** Lines 234-238. *)
Definition matchCase (inputUser assistantMessage : jsstring) : jsstring :=
  if isUpperCase inputUser then toUpperCase assistantMessage
  else if isLowerCase inputUser then toLowerCase assistantMessage
  else assistantMessage.

(** Lines 240-244. *)
Definition prunePunctuation (inputUser assistantMessage : jsstring) : jsstring :=
  if has_punct assistantMessage && negb (has_punct inputUser)
  then strip_punct assistantMessage
  else assistantMessage.

(** Lines 228-244, in their order. *)
Definition postProcess (inputUser assistantMessage : jsstring) : jsstring :=
  prunePunctuation inputUser
    (matchCase inputUser (lengthGuard inputUser assistantMessage)).

(** The [try] block, lines 184-248. *)
Definition generate (loadedEngine : Engine) (evs : list event)
    (inputUser : jsstring) : M jsstring :=
  exec (deliver evs) ;;
  call CallResetChat (resetChat loadedEngine) ;;
  assistantMessage <-
    paragraphs_loop (translateParagraph loadedEngine)
                    (split LF inputUser) [] ;;
  let assistantMessage := postProcess inputUser assistantMessage in
  stats <- call CallRuntimeStats (runtimeStatsText loadedEngine) ;;
  exec (setRuntimeStats stats) ;;
  ret assistantMessage.

(** The [try] block with its [catch], lines 183-255. *)
Definition generate_catch (loadedEngine : Engine) (evs : list event)
    (inputUser : jsstring) (st : app) : option jsstring * app :=
  match generate loadedEngine evs inputUser st with
  | (inl assistantMessage, st') => (Some assistantMessage, st')
  | (inr _, st') =>
      (None,
       setErrorBrowserMessage (Some (js "Error. Please try again."))
         (setIsGenerating false st'))
  end.

(** Lines 164-255: the input needs the model. [engine] is the one the
    closure holds, that of the render [cl]. *)
Definition translate (cl : ui_state) (il : interleaving)
    (inputUser : jsstring) (st : app) : option jsstring * app :=
  let st := setIsGenerating true st in
  match engine cl with
  | Some loadedEngine =>
      generate_catch loadedEngine (during_generation il) inputUser st
  | None =>
      match loadEngine (during_load il) st with
      | (inl loadedEngine, st') =>
          generate_catch loadedEngine (during_generation il) inputUser st'
      | (inr error, st') =>
          (None,
           setErrorBrowserMessage
             (Some (js "Could not load the model because " ++ error))
             (setIsGenerating false st'))
      end
  end.

(** [onSend(inputUser)]: [None] is [undefined]. *)
Definition onSend (cl : ui_state) (il : interleaving) (inputUser : value)
    (st : app) : option jsstring * app :=
  match inputUser with
  | Num n => (Some (Number_toString n), st)
  | Str s =>
      if is_empty s then (None, st)
      else if negb (isNaN_Number s) then (Some s, st)
      else if only_digits_space_nonword s then (Some s, st)
      else if negb (has_vowel s) then (Some s, st)
      else translate cl il s st
  end.

(** [inputUser.toString()], line 151. *)
Definition text_form (inputUser : value) : jsstring :=
  match inputUser with
  | Num n => Number_toString n
  | Str s => s
  end.

(** The test of line 150 on a value that passed line 146: a number, or a
    string that is not blank and that [Number] reads as a number. *)
Definition is_numeric (inputUser : value) : bool :=
  match inputUser with
  | Num _ => true
  | Str s => negb (is_empty s) && negb (isNaN_Number s)
  end.

(** ** [addTranslation], lines 63-73 *)

(** Lines 68-70: [pop()] while the list is longer than [cap]. *)
Definition pop_while_longer (cap : nat) (l : list translation)
    : list translation :=
  Nat.iter (length l - cap) (@removelast translation) l.

(** [addTranslation(input, output)] when the closure's [nextId] holds
    [nextId]; the caller keeps the incremented counter. *)
Definition addTranslation (nextId : nat) (input : value) (output : jsstring)
    : app -> app :=
  setTranslations (fun prevTranslations =>
    pop_while_longer 40
      ({| input := input; output := output; id := nextId |}
       :: prevTranslations)).

(** ** Rows *)

(** [col.charCodeAt(0) - 'A'.charCodeAt(0)]: [None] is [NaN] (an empty
    column name). *)
Definition columnIndex (col : jsstring) : option Z :=
  match col with
  | [] => None
  | c :: _ => Some (Z.of_N c - 65)%Z
  end.

(** [row[index]]: [undefined] outside the array. *)
Definition row_get (r : row) (index : option Z) : option value :=
  match index with
  | Some z => if (z <? 0)%Z then None else nth (Z.to_nat z) r None
  | None => None
  end.

(** [a[n] = x] on an array: past the end the array grows, with holes. *)
Fixpoint array_set (a : row) (n : nat) (x : option value) : row :=
  match n, a with
  | O, [] => [x]
  | O, _ :: t => x :: t
  | S n', [] => None :: array_set [] n' x
  | S n', h :: t => h :: array_set t n' x
  end.

(** [row[index] = v]: a negative or [NaN] index sets a property that is no
    cell of the row. *)
Definition row_set (r : row) (index : option Z) (v : value) : row :=
  match index with
  | Some z => if (z <? 0)%Z then r else array_set r (Z.to_nat z) (Some v)
  | None => r
  end.

(** The rows are objects changed in place: row [i] of the grid becomes [r]. *)
Fixpoint grid_set (g : grid) (i : nat) (r : row) : grid :=
  match g, i with
  | [], _ => []
  | _ :: t, O => r :: t
  | h :: t, S i' => h :: grid_set t i' r
  end.

(** The truth value of [value] in [if (value)], line 311. *)
Definition truthy (v : option value) : bool :=
  match v with
  | None => false
  | Some (Num n) => Number_truthy n
  | Some (Str s) => negb (is_empty s)
  end.

(** [response || ''], lines 313 and 315. *)
Definition or_empty (response : option jsstring) : jsstring :=
  match response with
  | Some s => s
  | None => []
  end.

(** ** The row loop of [handleFileUpload], lines 305-318 *)

(** What the loop carries: the application, [jsonData], and the [nextId] of
    the render whose handler is running. *)
Record run_state := {
  rs_app : app;
  rs_grid : grid;
  rs_nextId : nat
}.

(** Lines 309-317: the body of the loop for row [i], after the test of the
    flag. [cl] is the render the handler closed over. *)
Definition row_body (cl : ui_state) (il : interleaving) (i : nat)
    (rs : run_state) : run_state :=
  let row := nth i (rs_grid rs) [] in
  let value := row_get row (columnIndex (sourceColumn cl)) in
  match value with
  | Some v =>
      if truthy value then
        let (response, st1) := onSend cl il v (rs_app rs) in
        let row' :=
          row_set row (columnIndex (destinationColumn cl))
                  (Str (or_empty response)) in
        let st2 := addTranslation (rs_nextId rs) v (or_empty response) st1 in
        {| rs_app := setCurrentRow (i + 1) st2;
           rs_grid := grid_set (rs_grid rs) i row';
           rs_nextId := S (rs_nextId rs) |}
      else
        {| rs_app := setCurrentRow (i + 1) (rs_app rs);
           rs_grid := rs_grid rs;
           rs_nextId := rs_nextId rs |}
  | None =>
      {| rs_app := setCurrentRow (i + 1) (rs_app rs);
         rs_grid := rs_grid rs;
         rs_nextId := rs_nextId rs |}
  end.

(** The events between the end of row [i] and the next test of the flag. *)
Definition boundary (il : interleaving) (rs : run_state) : run_state :=
  {| rs_app := deliver (at_boundary il) (rs_app rs);
     rs_grid := rs_grid rs;
     rs_nextId := rs_nextId rs |}.

(** Lines 305-318: [todo] is [jsonData.length - i], the rows still ahead. *)
Fixpoint rows_loop (cl : ui_state) (sched : schedule) (todo i : nat)
    (rs : run_state) : run_state :=
  match todo with
  | O => rs
  | S todo' =>
      if negb (isGeneratingRef (rs_app rs)) then rs
      else
        rows_loop cl sched todo' (S i)
          (boundary (sched i) (row_body cl (sched i) i rs))
  end.

(** ** [reader.onload] of [handleFileUpload], lines 290-334

    [jsonData] is the first sheet as [sheet_to_json] returns it; the result
    holds the rows written to [updated_file.xlsx], or [None] when the
    handler ends on an exception and no file is made: with [startRow < 1]
    the first row read is [jsonData[-1]], which is [undefined], and line 310
    throws. The handler is the one of the render on the page; its [nextId]
    is the one line 63 of that render set to [0] (a run that adds a
    translation changes the state, so the next run's handler comes from a
    later render). *)
Definition run_start (jsonData : grid) (st : app) : run_state :=
  {| rs_app :=
       setTotalRows (length jsonData)
         (setRef true (setIsGenerating true st));
     rs_grid := jsonData;
     rs_nextId := 0 |}.

Definition handleFileUpload (sched : schedule) (jsonData : grid) (st : app)
    : app * option grid :=
  let cl := rendered st in
  let rs0 := run_start jsonData st in
  let first := (startRow cl - 1)%Z in
  if (first <? 0)%Z then (rs_app rs0, None)
  else
    let rs :=
      rows_loop cl sched (length jsonData - Z.to_nat first) (Z.to_nat first)
        rs0 in
    (setIsGenerating false (rs_app rs), Some (rs_grid rs)).

(** The list holds the newest entry first: [id]s go down along it, and all
    are under the next [id]. *)
Definition ids_in_order (rs : run_state) : Prop :=
  StronglySorted (fun a b => id b < id a)
                 (translations (pending (rs_app rs)))
  /\ Forall (fun t => id t < rs_nextId rs)
            (translations (pending (rs_app rs))).

End App.

(** ** Hosts and engines to evaluate the code on *)

Definition ascii_upper (c : N) : N :=
  if in_range 97 122 c then (c - 32)%N else c.
Definition ascii_lower (c : N) : N :=
  if in_range 65 90 c then (c + 32)%N else c.

(** Spaces dropped at the front. *)
Fixpoint trim_start (s : jsstring) : jsstring :=
  match s with
  | c :: s' => if is_space c then trim_start s' else s
  | [] => []
  end.

Definition trim (s : jsstring) : jsstring :=
  rev (trim_start (rev (trim_start s))).

(** An optional sign and one digit or more. *)
Definition is_decimal_integer (s : jsstring) : bool :=
  match s with
  | c :: d :: s' =>
      if N.eqb c 43 || N.eqb c 45 then forallb is_digit (d :: s')
      else forallb is_digit s
  | _ => negb (is_empty s) && forallb is_digit s
  end.

(** A host whose numbers are the integers, which [Number] reads in decimal
    (the blank string is [0], as in JavaScript), and whose letters are
    ASCII's. *)
Definition integer_host : JSHost := {|
  number := Z;
  Number_toString := fun z => js (NilZero.string_of_int (Z.to_int z));
  Number_truthy := fun z => negb (Z.eqb z 0);
  isNaN_Number := fun s =>
    negb (is_empty (trim s) || is_decimal_integer (trim s));
  toUpperCase := map ascii_upper;
  toLowerCase := map ascii_lower
|}.

(** An engine whose state counts the completions asked so far; [script]
    answers the one numbered [n]. Nothing else fails. *)
Definition scripted_engine
    (script : nat -> ChatCompletionRequest -> list (option jsstring) + exn)
    : EngineInterface := {|
  World := nat;
  Engine := unit;
  CreateWebWorkerEngine := fun w => (inl tt, w);
  hasModelInCache := fun w => (inl true, w);
  resetChat := fun _ w => (inl tt, w);
  chat_completions_create := fun _ request w => (script w request, S w);
  runtimeStatsText := fun _ w => (inl (js "stats"), w);
  interruptGenerate := fun _ w => w
|}.

(** Every completion is [bonjour], in two chunks around an empty one. *)
Definition says_bonjour (n : nat) (request : ChatCompletionRequest)
    : list (option jsstring) + exn :=
  inl [Some (js "bon"); None; Some (js "jour")].

(** The first completion throws, the later ones are [bonjour]. *)
Definition fails_first (n : nat) (request : ChatCompletionRequest)
    : list (option jsstring) + exn :=
  match n with
  | O => inr (js "Error: the worker failed")
  | S _ => inl [Some (js "bonjour")]
  end.

(** The page after its first render: columns [B] and [C], start row [2]. *)
Definition first_render {host : JSHost} {web_llm : EngineInterface}
    (e : option Engine) : ui_state :=
  {| engine := e; isFetching := false; isGenerating := false;
     runtimeStats := []; translations := []; modelInCache := None;
     errorBrowserMessage := None;
     sourceColumn := js "B"; destinationColumn := js "C"; startRow := 2;
     currentRow := 0; totalRows := 0 |}.

Definition initial_app {host : JSHost} {web_llm : EngineInterface}
    (e : option Engine) (w : World) : app :=
  {| pending := first_render e; rendered := first_render e;
     isGeneratingRef := false; world := w; calls := [] |}.

(** No event at any row. *)
Definition quiet : schedule :=
  fun _ => {| during_load := []; during_generation := []; at_boundary := [] |}.

(** *** Sheets and pages of the examples, on [integer_host] *)

Definition numv (z : Z) : @value integer_host := @Num integer_host z.
Definition strv (t : string) : @value integer_host :=
  @Str integer_host (js t).
Definition num (z : Z) : option (@value integer_host) := Some (numv z).
Definition str (t : string) : option (@value integer_host) := Some (strv t).

(** The page of [first_render] on a scripted engine, loaded or not. *)
Definition page
    (script : nat -> ChatCompletionRequest -> list (option jsstring) + exn)
    (loaded : bool) : @app integer_host (scripted_engine script) :=
  @initial_app integer_host (scripted_engine script)
    (if loaded then Some tt else None) 0.

(** A header and five rows of text in column [B]. *)
Definition five_rows : @grid integer_host :=
  [ [str "id"; str "text"];
    [num 1; str "one"];
    [num 2; str "two"];
    [num 3; str "three"; str "keep"];
    [num 4; str "four"];
    [num 5; str "five"] ].

(** While the second row (index [2]) is in flight React commits, the user
    presses Stop, React commits again. *)
Definition stop_during_second_row : schedule :=
  fun i =>
    {| during_load := [];
       during_generation :=
         match i with
         | 2 => [Commit; StopClick; Commit]
         | _ => []
         end;
       at_boundary := [] |}.

(** A header, a text the model is asked about, another one, and a text
    that reads as a number. *)
Definition three_rows : @grid integer_host :=
  [ [str "id"; str "text"; str "french"];
    [num 1; str "hello"; str "old"];
    [num 2; str "world"];
    [num 3; str "42"] ].

(** A header, a row whose source cell is the number 0, a row whose source
    cell is the number 7. *)
Definition zero_and_seven : @grid integer_host :=
  [ [str "id"; str "amount"];
    [num 1; num 0];
    [num 2; num 7] ].

(** Two sheets of one row each, for two uploads. *)
Definition sheet_cat : @grid integer_host := [ [str "id"; str "text"]; [num 1; str "cat"] ].
Definition sheet_dog : @grid integer_host := [ [str "id"; str "text"]; [num 1; str "dog"] ].

(** Two uploads on the same page: the first run, the commit of the state it
    left, the second run. *)
Definition two_uploads : @app integer_host (scripted_engine says_bonjour) :=
  fst (handleFileUpload quiet sheet_dog
         (commit (fst (handleFileUpload quiet sheet_cat
                         (page says_bonjour true))))).

(** ** More of [App] *)

(** The request lines 194-210 build for a paragraph: the prompt chosen by
    the number of words, then the paragraph. *)
Definition request_for (paragraph : jsstring) : ChatCompletionRequest :=
  {| content :=
       (if 5 <? length (split SPACE paragraph)
        then promptSentenceEnglishToFrench
        else promptEnglishToFrench) ++ paragraph;
     temperature_tenths := 3;
     max_gen_len := length paragraph + 50 |}.


(** What a paragraph stands for in the output when the model is the pure
    function [f]: a blank one stays blank. *)
Definition translated_by (f : jsstring -> jsstring) (paragraph : jsstring)
    : jsstring :=
  if is_empty paragraph then [] else f paragraph.

(** A model that is a pure function of the paragraph and never throws. *)
Definition pure_model (f : jsstring -> jsstring) (paragraph : jsstring)
    (w : unit) : (jsstring + Empty_set) * unit :=
  (inl (f paragraph), w).

(** *** [checkBrowser], lines 78-107

    The patterns are ASCII words under the [i] flag, searched anywhere in
    the user agent: a code unit matches a letter of the pattern when both
    have the same ASCII upper case. *)
Fixpoint starts_with_ci (pattern s : jsstring) : bool :=
  match pattern, s with
  | [], _ => true
  | p :: pattern', c :: s' =>
      N.eqb (ascii_upper p) (ascii_upper c) && starts_with_ci pattern' s'
  | _ :: _, [] => false
  end.

Fixpoint contains_ci (pattern s : jsstring) : bool :=
  starts_with_ci pattern s
  || match s with
     | [] => false
     | _ :: s' => contains_ci pattern s'
     end.

(** [/a|b|c/i.test(s)] for words [a], [b], [c]. *)
Definition test_any_ci (alternatives : list jsstring) (s : jsstring) : bool :=
  existsb (fun pattern => contains_ci pattern s) alternatives.

Definition mobile_words : list jsstring :=
  [js "Mobi"; js "Android"; js "iPhone"; js "iPad"; js "iPod";
   js "Windows Phone"].
Definition firefox_words : list jsstring := [js "firefox"; js "fxios"].
Definition safari_words : list jsstring := [js "safari"].
Definition chrome_words : list jsstring := [js "chrome"; js "crios"; js "crmo"].

Section Classification.
Context {host : JSHost}.

(** The string gets past lines 146-162: it is not blank, [Number] does not
    read it, it has a code unit that is a letter or an underscore, and it
    has a vowel. *)
Definition needs_model (s : jsstring) : bool :=
  negb (is_empty s) && isNaN_Number s
  && negb (only_digits_space_nonword s) && has_vowel s.

End Classification.

Section CallLog.
Context {host : JSHost} {web_llm : EngineInterface}.

(** The computation [c] only adds to the list of calls. *)
Definition appends {A : Type} (c : M A) : Prop :=
  forall st : app, exists l : list engine_call,
    calls (snd (c st)) = calls st ++ l.

End CallLog.

Section Browser.
Context {host : JSHost} {web_llm : EngineInterface}.

(** [checkBrowser()] on a page whose [navigator.userAgent] is [userAgent]
    and where [window.chrome] is truthy or not. *)
Definition checkBrowser (userAgent : jsstring) (window_chrome : bool)
    (st : app) : bool * app :=
  let isMobile := test_any_ci mobile_words userAgent in
  if isMobile then
    (false,
     setErrorBrowserMessage
       (Some (js "Mobile phones are not compatible with WebGPU.")) st)
  else if test_any_ci firefox_words userAgent then
    (false,
     setErrorBrowserMessage
       (Some (js "Firefox is not compatible with WebGPU.")) st)
  else if test_any_ci safari_words userAgent
          && negb (test_any_ci chrome_words userAgent) then
    (false,
     setErrorBrowserMessage
       (Some (js "Safari is not compatible with WebGPU.")) st)
  else if negb window_chrome then
    (false,
     setErrorBrowserMessage
       (Some (js "Your browser is not compatible with WebGPU.")) st)
  else (true, st).

End Browser.

(** An engine that cannot be created: [CreateWebWorkerEngine] throws. *)
Definition unloadable_engine : EngineInterface := {|
  World := unit;
  Engine := unit;
  CreateWebWorkerEngine := fun w => (inr (js "Error: no adapter"), w);
  hasModelInCache := fun w => (inl false, w);
  resetChat := fun _ w => (inl tt, w);
  chat_completions_create := fun _ _ w => (inl [], w);
  runtimeStatsText := fun _ w => (inl [], w);
  interruptGenerate := fun _ w => w
|}.

(** The page of [first_render] on that engine, nothing loaded. *)
Definition unloaded_page : @app integer_host unloadable_engine :=
  @initial_app integer_host unloadable_engine None tt.

(** The page of [first_render] with other settings, its engine loaded. *)
Definition configured_page (source destination : string) (start : Z)
    : @app integer_host (scripted_engine says_bonjour) :=
  let u : @ui_state integer_host (scripted_engine says_bonjour) :=
    {| engine := engine (rendered (page says_bonjour true));
       isFetching := false; isGenerating := false;
       runtimeStats := []; translations := []; modelInCache := None;
       errorBrowserMessage := None;
       sourceColumn := js source; destinationColumn := js destination;
       startRow := start; currentRow := 0; totalRows := 0 |} in
  {| pending := u; rendered := u; isGeneratingRef := false;
     world := 0; calls := [] |}.



(** The user agent of Chrome on a desktop, cut short: it names Safari and
    Chrome. *)
Definition chrome_desktop : jsstring :=
  js "Mozilla/5.0 (X11; Linux x86_64) AppleWebKit/537.36 Chrome/124.0 Safari/537.36".

(** * Properties *)

(** ** Strings and paragraphs *)

Lemma str_eqb_eq (a b : jsstring) : str_eqb a b = true -> a = b.
Proof.
  revert b; induction a as [|x a IH]; intros [|y b]; simpl; try discriminate.
  - reflexivity.
  - intros H. apply andb_true_iff in H as [Hxy Hab].
    apply N.eqb_eq in Hxy. f_equal; auto.
Qed.

Lemma split_not_nil (sep : N) (s : jsstring) : split sep s <> [].
Proof.
  destruct s as [|c s]; simpl; [discriminate|].
  destruct (N.eqb c sep); [discriminate|].
  destruct (split sep s); discriminate.
Qed.

(** Joining the pieces of a split gives the string back. *)
Lemma join_split (sep : N) (s : jsstring) : join sep (split sep s) = s.
Proof.
  induction s as [|c s IH]; simpl; [reflexivity|].
  destruct (N.eqb c sep) eqn:E.
  - apply N.eqb_eq in E; subst c.
    pose proof (split_not_nil sep s) as Hn.
    destruct (split sep s) as [|p ps]; [contradiction|].
    simpl in *. now rewrite IH.
  - pose proof (split_not_nil sep s) as Hn.
    destruct (split sep s) as [|p ps]; [contradiction|].
    destruct ps as [|q ps]; simpl in *; now rewrite <- IH.
Qed.

(** The last piece of a split is empty exactly for the empty string and for
    a string that ends with the separator. *)
Lemma last_split_empty (s : jsstring) :
  is_empty (last (split LF s) []) = ends_blank s.
Proof.
  unfold ends_blank.
  induction s as [|c s IH]; [reflexivity|].
  simpl split.
  pose proof (split_not_nil LF s) as Hn.
  destruct (N.eqb c LF) eqn:E.
  - destruct (split LF s) as [|p ps] eqn:Es; [contradiction|].
    change (last ([] :: p :: ps) []) with (last (p :: ps) []).
    rewrite IH. simpl rev.
    destruct (rev s) as [|d r] eqn:Er; simpl; [now rewrite E|reflexivity].
  - destruct (split LF s) as [|p ps] eqn:Es; [contradiction|].
    destruct ps as [|q ps].
    + pose proof (join_split LF s) as Hj. rewrite Es in Hj. simpl in Hj.
      subst p. simpl in IH |- *.
      destruct (rev s) as [|d r] eqn:Er; simpl; [now rewrite E|].
      rewrite <- IH. destruct s; [discriminate|reflexivity].
    + change (last ((c :: p) :: q :: ps) []) with (last (q :: ps) []).
      change (last (p :: q :: ps) []) with (last (q :: ps) []) in IH.
      rewrite IH. simpl rev.
      destruct (rev s) as [|d r] eqn:Er; simpl; [|reflexivity].
      apply (f_equal (@rev N)) in Er. rewrite rev_involutive in Er.
      subst s. discriminate.
Qed.

Lemma paragraphs_loop_blank {W E : Type}
    (model : jsstring -> W -> (jsstring + E) * W)
    (rest : list jsstring) (acc : jsstring) (w : W) :
  paragraphs_loop model ([] :: rest) acc w
  = paragraphs_loop model rest (acc ++ [LF]) w.
Proof. reflexivity. Qed.

Lemma paragraphs_loop_identity_cons (c : N) (p : jsstring)
    (rest : list jsstring) (acc : jsstring) :
  paragraphs_loop identity_model ((c :: p) :: rest) acc tt
  = paragraphs_loop identity_model rest
      (if is_empty rest then acc ++ c :: p else acc ++ (c :: p) ++ [LF]) tt.
Proof. destruct rest; reflexivity. Qed.

(** The loop with the identity model: the paragraphs joined by newlines
    after what was there, and one newline more when the last paragraph is
    empty. *)
Lemma paragraphs_loop_identity (ps : list jsstring) (acc : jsstring) :
  ps <> [] ->
  paragraphs_loop identity_model ps acc tt
  = (inl (acc ++ join LF ps ++ (if is_empty (last ps []) then [LF] else [])),
     tt).
Proof.
  revert acc; induction ps as [|p ps IH]; intros acc Hne; [contradiction|].
  destruct ps as [|q ps].
  - destruct p as [|c p]; simpl.
    + reflexivity.
    + now rewrite !app_nil_r.
  - assert (Hq : q :: ps <> []) by discriminate.
    change (last (p :: q :: ps) []) with (last (q :: ps) []).
    destruct p as [|c p].
    + rewrite paragraphs_loop_blank, (IH _ Hq).
      change (join LF ([] :: q :: ps)) with ([LF] ++ join LF (q :: ps)).
      now rewrite <- !app_assoc.
    + rewrite paragraphs_loop_identity_cons, (IH _ Hq).
      change (join LF ((c :: p) :: q :: ps))
        with ((c :: p) ++ [LF] ++ join LF (q :: ps)).
      cbn [is_empty]. now rewrite <- !app_assoc.
Qed.

(** What splitting and reassembling with the identity model gives, for every
    text: the text, with one newline added when it is empty or ends with a
    newline. *)
Lemma reassemble_identity_spec (text : jsstring) :
  reassemble_identity text
  = (inl (if ends_blank text then text ++ [LF] else text), tt).
Proof.
  unfold reassemble_identity.
  rewrite (@paragraphs_loop_identity _ [] (split_not_nil LF text)).
  rewrite join_split, last_split_empty. simpl.
  destruct (ends_blank text); [reflexivity|now rewrite app_nil_r].
Qed.

(** C1, evaluated where it fails: the text [a] followed by a newline splits
    into [a] and the empty paragraph; the loop gives [a], a newline for the
    end of a paragraph that is not the last, and a second newline for the
    empty paragraph. The reassembled text is one code unit longer than the
    original. *)
Theorem reassemble_identity_trailing_newline :
  reassemble_identity (js "a" ++ [LF]) = (inl (js "a" ++ [LF; LF]), tt)
  /\ reassemble_identity (js "a" ++ [LF]) <> (inl (js "a" ++ [LF]), tt).
Proof. split; [reflexivity|discriminate]. Qed.

(** A text that is not empty and does not end with a newline comes back
    exactly, blank lines inside it included. *)
Theorem reassemble_identity_roundtrip (text : jsstring) :
  ends_blank text = false ->
  reassemble_identity text = (inl text, tt).
Proof. intros H. now rewrite reassemble_identity_spec, H. Qed.

Lemma reassemble_identity_roundtrip_witness :
  ends_blank (js "a" ++ [LF; LF] ++ js "b c") = false
  /\ reassemble_identity (js "a" ++ [LF; LF] ++ js "b c")
     = (inl (js "a" ++ [LF; LF] ++ js "b c"), tt).
Proof.
  split; [reflexivity|].
  apply (reassemble_identity_roundtrip (js "a" ++ [LF; LF] ++ js "b c")).
  reflexivity.
Defined.

(** ** The post-processor *)

Lemma has_punct_strip (s : jsstring) : has_punct (strip_punct s) = false.
Proof.
  unfold has_punct, strip_punct.
  induction s as [|c s IH]; simpl; [reflexivity|].
  destruct (is_punct c) eqn:E; simpl; [exact IH|].
  now rewrite E.
Qed.

Section PostProcessor.
Context {host : JSHost}.

Lemma lengthGuard_runaway (inputUser assistantMessage : jsstring) :
  3 * length inputUser < length assistantMessage ->
  lengthGuard inputUser assistantMessage = inputUser.
Proof.
  intros H. unfold lengthGuard.
  destruct (Nat.ltb_spec (3 * length inputUser) (length assistantMessage));
    [reflexivity|lia].
Qed.

(** Matching the case of the input on the input itself changes nothing. *)
Lemma matchCase_self (inputUser : jsstring) :
  matchCase inputUser inputUser = inputUser.
Proof.
  unfold matchCase, isUpperCase, isLowerCase.
  destruct (str_eqb inputUser (toUpperCase inputUser)) eqn:U.
  - symmetry. now apply str_eqb_eq.
  - destruct (str_eqb inputUser (toLowerCase inputUser)) eqn:L;
      [symmetry; now apply str_eqb_eq|reflexivity].
Qed.

(** The punctuation test cannot hold of the input against itself. *)
Lemma prunePunctuation_self (inputUser : jsstring) :
  prunePunctuation inputUser inputUser = inputUser.
Proof.
  unfold prunePunctuation. now destruct (has_punct inputUser).
Qed.

(** C2: when the reassembled output of the model is more than three times
    as long as the input, the guard of lines 229-232 puts the input in its
    place, the case matching of lines 234-238 and the punctuation pruning of
    lines 241-244 leave the input as it is, and the post-processed output is
    the input. *)
Theorem postProcess_runaway_is_input (inputUser assistantMessage : jsstring) :
  3 * length inputUser < length assistantMessage ->
  lengthGuard inputUser assistantMessage = inputUser
  /\ matchCase inputUser inputUser = inputUser
  /\ prunePunctuation inputUser inputUser = inputUser
  /\ postProcess inputUser assistantMessage = inputUser.
Proof.
  intros H. unfold postProcess.
  rewrite (lengthGuard_runaway _ _ H), matchCase_self, prunePunctuation_self.
  auto.
Qed.

Lemma prunePunctuation_clean (inputUser assistantMessage : jsstring) :
  has_punct inputUser = false ->
  has_punct (prunePunctuation inputUser assistantMessage) = false.
Proof.
  intros H. unfold prunePunctuation. rewrite H.
  destruct (has_punct assistantMessage) eqn:E; simpl;
    [apply has_punct_strip|exact E].
Qed.

Lemma postProcess_clean (inputUser assistantMessage : jsstring) :
  has_punct inputUser = false ->
  has_punct (postProcess inputUser assistantMessage) = false.
Proof. intros H. now apply prunePunctuation_clean. Qed.

End PostProcessor.

(** ** The classifier *)

Section Classifier.
Context {host : JSHost} {web_llm : EngineInterface}.

(** Lines 146-162: a string that is not blank and passes one of the three
    tests comes back as it is, and the state is the one before. *)
Lemma onSend_short_circuit (cl : ui_state) (il : interleaving)
    (s : jsstring) (st : app) :
  s <> [] ->
  negb (isNaN_Number s) || only_digits_space_nonword s || negb (has_vowel s)
  = true ->
  onSend cl il (Str s) st = (Some s, st).
Proof.
  intros Hne H. unfold onSend.
  destruct s as [|c s]; [contradiction|]. cbn [is_empty].
  destruct (negb (isNaN_Number (c :: s))); [reflexivity|].
  destruct (only_digits_space_nonword (c :: s)); [reflexivity|].
  destruct (negb (has_vowel (c :: s))); [reflexivity|discriminate].
Qed.

(** C3: a number, or a string that [Number] reads as a number (the blank
    string apart, which line 146 answers first), comes back as its text
    form, [inputUser.toString()]; the application is left as it was, its
    list of engine calls included: the engine is not called. *)
Theorem numeric_value_passes_through (cl : ui_state) (il : interleaving)
    (inputUser : value) (st : app) :
  is_numeric inputUser = true ->
  onSend cl il inputUser st = (Some (text_form inputUser), st)
  /\ calls (snd (onSend cl il inputUser st)) = calls st.
Proof.
  intros H.
  assert (E : onSend cl il inputUser st = (Some (text_form inputUser), st)).
  { destruct inputUser as [n|s]; [reflexivity|].
    simpl in H. apply andb_true_iff in H as [Hne Hnum].
    cbn [text_form]. apply onSend_short_circuit.
    - destruct s; [discriminate|discriminate].
    - cbn [text_form]. now rewrite Hnum. }
  now rewrite E.
Qed.

Lemma only_digits_space_nonword_intro (s : jsstring) :
  s <> [] ->
  Forall (fun c => is_digit c = true \/ is_space c = true \/ is_word c = false)
         s ->
  only_digits_space_nonword s = true.
Proof.
  intros Hne H. unfold only_digits_space_nonword.
  apply andb_true_iff; split.
  - destruct s; [contradiction|reflexivity].
  - apply forallb_forall. rewrite Forall_forall in H.
    intros c Hc. unfold is_digit_space_nonword.
    destruct (H c Hc) as [Hd|[Hs|Hw]].
    + now rewrite Hd.
    + rewrite Hs. now rewrite orb_true_r.
    + rewrite Hw. now rewrite !orb_true_r.
Qed.

(** C10: a string that is not empty and holds only digits, white space and
    code units outside [[A-Za-z0-9_]] (an accented vowel is one) comes back
    unchanged, and the application with its list of engine calls is left as
    it was. The word [été] comes back unchanged too: its [t] is a word
    character, so the test of line 155 fails on it, and it is the vowel test
    of line 160 that returns it, no code unit of it being one of
    [aeiouy]. *)
Theorem symbols_only_passes_through (cl : ui_state) (il : interleaving)
    (st : app) :
  (forall s : jsstring,
     s <> [] ->
     Forall (fun c => is_digit c = true \/ is_space c = true
                      \/ is_word c = false) s ->
     onSend cl il (Str s) st = (Some s, st)
     /\ calls (snd (onSend cl il (Str s) st)) = calls st)
  /\ onSend cl il (Str ete) st = (Some ete, st).
Proof.
  split.
  - intros s Hne H.
    assert (E : onSend cl il (Str s) st = (Some s, st)).
    { apply onSend_short_circuit; [exact Hne|].
      rewrite (only_digits_space_nonword_intro s Hne H).
      now rewrite orb_true_r. }
    now rewrite E.
  - apply onSend_short_circuit; [discriminate|].
    replace (has_vowel ete) with false by reflexivity.
    now rewrite orb_true_r.
Qed.

End Classifier.

(** ** What [onSend] returns when it asked the model *)

Section Translation.
Context {host : JSHost} {web_llm : EngineInterface}.

(** A result of the [try] block is the post-processing of what the
    paragraph loop assembled. *)
Lemma generate_inv (loadedEngine : Engine) (evs : list event)
    (inputUser : jsstring) (st st' : app) (out : jsstring) :
  generate loadedEngine evs inputUser st = (inl out, st') ->
  exists (assistantMessage : jsstring) (st1 st2 : app),
    paragraphs_loop (translateParagraph loadedEngine)
                    (split LF inputUser) [] st1
    = (inl assistantMessage, st2)
    /\ out = postProcess inputUser assistantMessage.
Proof.
  unfold generate, bind, exec.
  destruct (call CallResetChat (resetChat loadedEngine) (deliver evs st))
    as [[u|error] st1]; [|discriminate].
  destruct (paragraphs_loop (translateParagraph loadedEngine)
              (split LF inputUser) [] st1) as [[a|error] st2] eqn:Hloop;
    [|discriminate].
  destruct (call CallRuntimeStats (runtimeStatsText loadedEngine) st2)
    as [[stats|error] st3]; [|discriminate].
  unfold ret. intros H. inversion H; subst.
  exists a, st1, st2. auto.
Qed.

Lemma generate_catch_inv (loadedEngine : Engine) (evs : list event)
    (inputUser : jsstring) (st st' : app) (out : jsstring) :
  generate_catch loadedEngine evs inputUser st = (Some out, st') ->
  exists assistantMessage : jsstring,
    out = postProcess inputUser assistantMessage.
Proof.
  unfold generate_catch.
  destruct (generate loadedEngine evs inputUser st) as [[a|error] st1] eqn:G;
    [|discriminate].
  intros H. inversion H; subst.
  apply generate_inv in G as (m & _ & _ & _ & E). eauto.
Qed.

(** Whatever [onSend] returns for a string is the string itself or the
    post-processing of some model output. *)
Lemma onSend_result (cl : ui_state) (il : interleaving) (s : jsstring)
    (st st' : app) (out : jsstring) :
  onSend cl il (Str s) st = (Some out, st') ->
  out = s \/ exists assistantMessage : jsstring,
             out = postProcess s assistantMessage.
Proof.
  unfold onSend.
  destruct (is_empty s); [discriminate|].
  destruct (negb (isNaN_Number s)); [intros H; inversion H; auto|].
  destruct (only_digits_space_nonword s); [intros H; inversion H; auto|].
  destruct (negb (has_vowel s)); [intros H; inversion H; auto|].
  unfold translate. intros H. right.
  destruct (engine cl) as [e|].
  - eapply generate_catch_inv; eassumption.
  - destruct (loadEngine (during_load il) (setIsGenerating true st))
      as [[e|error] st1]; [|discriminate].
    eapply generate_catch_inv; eassumption.
Qed.

(** C4: for an input without any of [. , ! ?], the post-processing of any
    model output has none of them, and so has whatever [onSend] returns for
    that input, with any engine: lines 241-244 strip the four characters
    from an output that has one. *)
Theorem clean_input_gives_clean_output (inputUser : jsstring) :
  has_punct inputUser = false ->
  (forall assistantMessage : jsstring,
     has_punct (postProcess inputUser assistantMessage) = false)
  /\ (forall (cl : ui_state) (il : interleaving) (st st' : app)
             (out : jsstring),
        onSend cl il (Str inputUser) st = (Some out, st') ->
        has_punct out = false).
Proof.
  intros H. split.
  - intros a. now apply postProcess_clean.
  - intros cl il st st' out E.
    apply onSend_result in E as [->|[a ->]];
      [exact H|now apply postProcess_clean].
Qed.

(** The two ways [onSend] ends with nothing after it asked for the model:
    the engine threw inside the [try] block, or could not be loaded. *)
Lemma engine_error_gives_no_result (cl : ui_state) (il : interleaving)
    (s : jsstring) (st st' : app) (e : Engine) (error : exn) :
  engine cl = Some e ->
  generate e (during_generation il) s (setIsGenerating true st)
  = (inr error, st') ->
  translate cl il s st
  = (None,
     setErrorBrowserMessage (Some (js "Error. Please try again."))
       (setIsGenerating false st')).
Proof.
  intros He Hg. unfold translate, generate_catch. now rewrite He, Hg.
Qed.

Lemma load_error_gives_no_result (cl : ui_state) (il : interleaving)
    (s : jsstring) (st st' : app) (error : exn) :
  engine cl = None ->
  loadEngine (during_load il) (setIsGenerating true st) = (inr error, st') ->
  translate cl il s st
  = (None,
     setErrorBrowserMessage
       (Some (js "Could not load the model because " ++ error))
       (setIsGenerating false st')).
Proof.
  intros He Hl. unfold translate. now rewrite He, Hl.
Qed.

End Translation.

(** ** Rows and the list of translations *)

Section Rows.
Context {host : JSHost} {web_llm : EngineInterface}.

Lemma grid_set_length (g : grid) (i : nat) (r : row) :
  length (grid_set g i r) = length g.
Proof.
  revert i; induction g as [|h t IH]; intros [|i]; simpl; auto.
Qed.

Lemma nth_grid_set_same (g : grid) (i : nat) (r : row) :
  i < length g -> nth i (grid_set g i r) [] = r.
Proof.
  revert i; induction g as [|h t IH]; intros [|i] H; simpl in *; try lia.
  - reflexivity.
  - apply IH. lia.
Qed.

Lemma nth_grid_set_other (g : grid) (i j : nat) (r : row) :
  j <> i -> nth j (grid_set g i r) [] = nth j g [].
Proof.
  revert i j; induction g as [|h t IH]; intros [|i] [|j] H; simpl;
    try reflexivity; try contradiction.
  apply IH. lia.
Qed.

Lemma nth_array_set_same (a : row) (n : nat) (x : option value) :
  nth n (array_set a n x) None = x.
Proof.
  revert a; induction n as [|n IH]; intros [|h t]; simpl; auto.
Qed.

(** A cell written at a column that is a cell of the row reads back. *)
Lemma row_get_set_same (r : row) (z : Z) (v : value) :
  (0 <= z)%Z -> row_get (row_set r (Some z) v) (Some z) = Some v.
Proof.
  intros Hz. unfold row_get, row_set.
  destruct (Z.ltb_spec z 0); [lia|]. apply nth_array_set_same.
Qed.

Lemma iter_removelast (n : nat) (l : list translation) :
  Nat.iter n (@removelast translation) l = firstn (length l - n) l.
Proof.
  induction n as [|n IH]; simpl.
  - now rewrite Nat.sub_0_r, firstn_all.
  - rewrite IH, removelast_firstn_len, firstn_firstn, length_firstn.
    f_equal. lia.
Qed.

(** The loop of lines 68-70 keeps the first [cap] entries. *)
Lemma pop_while_longer_firstn (cap : nat) (l : list translation) :
  pop_while_longer cap l = firstn cap l.
Proof.
  unfold pop_while_longer. rewrite iter_removelast.
  destruct (Nat.le_gt_cases (length l) cap) as [H|H].
  - replace (length l - (length l - cap)) with (length l) by lia.
    now rewrite firstn_all, firstn_all2.
  - f_equal. lia.
Qed.

(** After [addTranslation] the list starts with the new entry and goes on
    with the 39 most recent ones of before. *)
Lemma addTranslation_spec (nextId : nat) (v : value) (out : jsstring)
    (st : app) :
  translations (pending (addTranslation nextId v out st))
  = {| input := v; output := out; id := nextId |}
    :: firstn 39 (translations (pending st)).
Proof.
  unfold addTranslation, setTranslations, with_pending. simpl.
  now rewrite pop_while_longer_firstn.
Qed.

(** *** One row *)

(** A row whose source cell is falsy is passed over: nothing is written, no
    translation is added, [nextId] stays. *)
Lemma row_body_falsy (cl : ui_state) (il : interleaving) (i : nat)
    (rs : run_state) :
  truthy (row_get (nth i (rs_grid rs) []) (columnIndex (sourceColumn cl)))
  = false ->
  row_body cl il i rs
  = {| rs_app := setCurrentRow (i + 1) (rs_app rs);
       rs_grid := rs_grid rs;
       rs_nextId := rs_nextId rs |}.
Proof.
  intros H. unfold row_body.
  destruct (row_get (nth i (rs_grid rs) []) (columnIndex (sourceColumn cl)))
    as [v|]; [|reflexivity].
  now rewrite H.
Qed.

(** A row whose source cell is truthy: [onSend] runs on the cell, its
    result, or the empty string, is written in the destination column of
    that row, and a translation is added under the current [nextId]. *)
Lemma row_body_truthy (cl : ui_state) (il : interleaving) (i : nat)
    (rs : run_state) (v : value) (response : option jsstring) (st1 : app) :
  row_get (nth i (rs_grid rs) []) (columnIndex (sourceColumn cl)) = Some v ->
  truthy (Some v) = true ->
  onSend cl il v (rs_app rs) = (response, st1) ->
  row_body cl il i rs
  = {| rs_app :=
         setCurrentRow (i + 1)
           (addTranslation (rs_nextId rs) v (or_empty response) st1);
       rs_grid :=
         grid_set (rs_grid rs) i
           (row_set (nth i (rs_grid rs) [])
                    (columnIndex (destinationColumn cl))
                    (Str (or_empty response)));
       rs_nextId := S (rs_nextId rs) |}.
Proof.
  intros Hv Ht Hs. unfold row_body. rewrite Hv, Ht, Hs. reflexivity.
Qed.

Lemma row_body_other_rows (cl : ui_state) (il : interleaving) (i j : nat)
    (rs : run_state) :
  j <> i ->
  nth j (rs_grid (row_body cl il i rs)) [] = nth j (rs_grid rs) [].
Proof.
  intros H. unfold row_body.
  destruct (row_get (nth i (rs_grid rs) []) (columnIndex (sourceColumn cl)))
    as [v|]; [|reflexivity].
  destruct (truthy (Some v)); [|reflexivity].
  destruct (onSend cl il v (rs_app rs)) as [response st1]. simpl.
  now apply nth_grid_set_other.
Qed.

(** C9: when [onSend] returns nothing for the truthy source cell of row
    [i] (the engine threw, or could not be loaded), the row gets the empty
    string in its destination column, over what was there, and a
    translation from the cell to the empty string is put at the head of the
    list. *)
Theorem no_result_writes_empty_string (cl : ui_state) (il : interleaving)
    (i : nat) (rs : run_state) (v : value) (st1 : app) :
  row_get (nth i (rs_grid rs) []) (columnIndex (sourceColumn cl)) = Some v ->
  truthy (Some v) = true ->
  onSend cl il v (rs_app rs) = (None, st1) ->
  rs_grid (row_body cl il i rs)
  = grid_set (rs_grid rs) i
      (row_set (nth i (rs_grid rs) [])
               (columnIndex (destinationColumn cl)) (Str []))
  /\ (forall z : Z,
        i < length (rs_grid rs) ->
        columnIndex (destinationColumn cl) = Some z -> (0 <= z)%Z ->
        row_get (nth i (rs_grid (row_body cl il i rs)) []) (Some z)
        = Some (Str []))
  /\ translations (pending (rs_app (row_body cl il i rs)))
     = {| input := v; output := []; id := rs_nextId rs |}
       :: firstn 39 (translations (pending st1)).
Proof.
  intros Hv Ht Hs.
  rewrite (row_body_truthy cl il i rs v None st1 Hv Ht Hs). simpl.
  split; [reflexivity|split].
  - intros z Hi Hz Hpos. rewrite nth_grid_set_same by exact Hi.
    rewrite Hz. now apply row_get_set_same.
  - apply addTranslation_spec.
Qed.

(** A row whose source cell is [undefined] or the empty string is passed
    over: the grid, the list of translations and [nextId] are those of
    before. *)
Theorem blank_source_row_is_passed_over (cl : ui_state) (il : interleaving)
    (i : nat) (rs : run_state) :
  row_get (nth i (rs_grid rs) []) (columnIndex (sourceColumn cl)) = None
  \/ row_get (nth i (rs_grid rs) []) (columnIndex (sourceColumn cl))
     = Some (Str []) ->
  rs_grid (row_body cl il i rs) = rs_grid rs
  /\ translations (pending (rs_app (row_body cl il i rs)))
     = translations (pending (rs_app rs))
  /\ rs_nextId (row_body cl il i rs) = rs_nextId rs.
Proof.
  intros H. rewrite row_body_falsy; [now repeat split|].
  destruct H as [-> | ->]; reflexivity.
Qed.

(** A row whose source cell is truthy gets the text [onSend] returned for
    that cell in its destination column, and a translation from the cell
    to that text is put at the head of the list. *)
Theorem truthy_source_row_is_written (cl : ui_state) (il : interleaving)
    (i : nat) (rs : run_state) (v : value) (text : jsstring) (st1 : app)
    (z : Z) :
  row_get (nth i (rs_grid rs) []) (columnIndex (sourceColumn cl)) = Some v ->
  truthy (Some v) = true ->
  onSend cl il v (rs_app rs) = (Some text, st1) ->
  i < length (rs_grid rs) ->
  columnIndex (destinationColumn cl) = Some z -> (0 <= z)%Z ->
  row_get (nth i (rs_grid (row_body cl il i rs)) []) (Some z)
  = Some (Str text)
  /\ hd_error (translations (pending (rs_app (row_body cl il i rs))))
     = Some {| input := v; output := text; id := rs_nextId rs |}.
Proof.
  intros Hv Ht Hs Hi Hz Hpos.
  rewrite (row_body_truthy cl il i rs v (Some text) st1 Hv Ht Hs).
  cbn [rs_grid rs_app or_empty]. split.
  - rewrite nth_grid_set_same by exact Hi.
    rewrite Hz. now apply row_get_set_same.
  - change (translations (pending (setCurrentRow (i + 1)
              (addTranslation (rs_nextId rs) v text st1))))
      with (translations (pending
              (addTranslation (rs_nextId rs) v text st1))).
    now rewrite addTranslation_spec.
Qed.

End Rows.

(** ** The row loop *)

Section Loop.
Context {host : JSHost} {web_llm : EngineInterface}.

(** With the flag down the loop ends at once. *)
Lemma rows_loop_flag_down (cl : ui_state) (sched : schedule) (todo i : nat)
    (rs : run_state) :
  isGeneratingRef (rs_app rs) = false ->
  rows_loop cl sched todo i rs = rs.
Proof.
  intros H. destruct todo; simpl; [reflexivity|]. now rewrite H.
Qed.

(** The loop over [a + b] rows is the loop over the first [a], then over
    the [b] that follow. *)
Lemma rows_loop_add (cl : ui_state) (sched : schedule) (a b i : nat)
    (rs : run_state) :
  rows_loop cl sched (a + b) i rs
  = rows_loop cl sched b (i + a) (rows_loop cl sched a i rs).
Proof.
  revert i rs; induction a as [|a IH]; intros i rs.
  - simpl. now rewrite Nat.add_0_r.
  - simpl.
    destruct (isGeneratingRef (rs_app rs)) eqn:F; simpl.
    + rewrite IH. f_equal. lia.
    + symmetry. now apply rows_loop_flag_down.
Qed.

(** The loop over the rows [i .. i + todo - 1] writes no other row. *)
Lemma rows_loop_other_rows (cl : ui_state) (sched : schedule)
    (todo i j : nat) (rs : run_state) :
  j < i \/ i + todo <= j ->
  nth j (rs_grid (rows_loop cl sched todo i rs)) [] = nth j (rs_grid rs) [].
Proof.
  revert i rs; induction todo as [|todo IH]; intros i rs H;
    [reflexivity|].
  simpl. destruct (isGeneratingRef (rs_app rs)); simpl; [|reflexivity].
  rewrite IH by lia. unfold boundary. simpl.
  apply row_body_other_rows. lia.
Qed.

Lemma run_start_flag (jsonData : grid) (st : app) :
  isGeneratingRef (rs_app (run_start jsonData st)) = true.
Proof. reflexivity. Qed.

(** C6: the flag is up when the loop starts (line 292). If it is down after
    the first [k] rows of the run, rows of the sheet (it was cleared while one of them was in
    flight, or between two of them), the loop reads it before the next row
    and ends: the file is made, it holds the grid as those [k] rows left
    it, and every row after them is the row of the input. *)
Theorem stop_leaves_later_rows (sched : schedule) (jsonData : grid)
    (st : app) (k : nat) :
  (1 <= startRow (rendered st))%Z ->
  Z.to_nat (startRow (rendered st) - 1) + k <= length jsonData ->
  isGeneratingRef
    (rs_app (rows_loop (rendered st) sched k
               (Z.to_nat (startRow (rendered st) - 1))
               (run_start jsonData st))) = false ->
  isGeneratingRef (rs_app (run_start jsonData st)) = true
  /\ snd (handleFileUpload sched jsonData st)
     = Some (rs_grid (rows_loop (rendered st) sched k
                        (Z.to_nat (startRow (rendered st) - 1))
                        (run_start jsonData st)))
  /\ forall j : nat,
       Z.to_nat (startRow (rendered st) - 1) + k <= j ->
       nth j (rs_grid (rows_loop (rendered st) sched k
                         (Z.to_nat (startRow (rendered st) - 1))
                         (run_start jsonData st))) []
       = nth j jsonData [].
Proof.
  intros Hstart Hk Hflag.
  set (first := Z.to_nat (startRow (rendered st) - 1)) in *.
  set (rs_k := rows_loop (rendered st) sched k first (run_start jsonData st))
    in *.
  split; [reflexivity|split].
  - unfold handleFileUpload.
    destruct (Z.ltb_spec (startRow (rendered st) - 1) 0); [lia|].
    fold first. simpl.
    f_equal. f_equal.
    replace (length jsonData - first)
      with (k + (length jsonData - first - k)) by lia.
    rewrite rows_loop_add. fold rs_k.
    now apply rows_loop_flag_down.
  - intros j Hj. subst rs_k. now rewrite rows_loop_other_rows by lia.
Qed.

End Loop.

(** ** What [onSend] leaves alone *)

Section Frames.
Context {host : JSHost} {web_llm : EngineInterface}.
Context {X : Type} (proj : app -> X).

(** [proj] reads neither the world nor the list of calls. *)
Hypothesis proj_call :
  forall (st : app) (w : World) (cs : list engine_call),
    proj {| pending := pending st; rendered := rendered st;
            isGeneratingRef := isGeneratingRef st; world := w; calls := cs |}
    = proj st.

Lemma keeps_ret {A : Type} (a : A) : keeps proj (ret a).
Proof. intros st. reflexivity. Qed.

Lemma keeps_bind {A B : Type} (c : M A) (k : A -> M B) :
  keeps proj c -> (forall a, keeps proj (k a)) -> keeps proj (bind c k).
Proof.
  intros Hc Hk st. unfold bind. specialize (Hc st).
  destruct (c st) as [[a|error] st1]; simpl in *; [|exact Hc].
  rewrite Hk. exact Hc.
Qed.

Lemma keeps_exec (f : app -> app) :
  (forall st, proj (f st) = proj st) -> keeps proj (exec f).
Proof. intros H st. apply H. Qed.

Lemma keeps_call {A : Type} (c : engine_call)
    (op : World -> (A + exn) * World) : keeps proj (call c op).
Proof.
  intros st. unfold call. destruct (op (world st)) as [r w]. simpl.
  apply proj_call.
Qed.

Lemma keeps_translateParagraph (e : Engine) (paragraph : jsstring) :
  keeps proj (translateParagraph e paragraph).
Proof.
  unfold translateParagraph. apply keeps_bind; [apply keeps_call|].
  intros a. apply keeps_ret.
Qed.

Lemma keeps_paragraphs_loop (e : Engine) (ps : list jsstring)
    (acc : jsstring) :
  keeps proj (paragraphs_loop (translateParagraph e) ps acc).
Proof.
  revert acc; induction ps as [|p ps IH]; intros acc st; [reflexivity|].
  simpl. destruct (is_empty p); [apply IH|].
  pose proof (keeps_translateParagraph e p st) as Hp.
  destruct (translateParagraph e p st) as [[t|error] st1]; simpl in Hp;
    [|exact Hp].
  destruct (negb (is_empty ps)); rewrite IH; exact Hp.
Qed.

(** When the setters [onSend] uses and the events it is given leave [proj]
    alone, so does [onSend]. *)
Lemma onSend_keeps (cl : ui_state) (il : interleaving) (v : value) :
  (forall b st, proj (setIsGenerating b st) = proj st) ->
  (forall b st, proj (setIsFetching b st) = proj st) ->
  (forall e st, proj (setEngine e st) = proj st) ->
  (forall c st, proj (setModelInCache c st) = proj st) ->
  (forall s st, proj (setRuntimeStats s st) = proj st) ->
  (forall m st, proj (setErrorBrowserMessage m st) = proj st) ->
  (forall st, proj (deliver (during_load il) st) = proj st) ->
  (forall st, proj (deliver (during_generation il) st) = proj st) ->
  forall st : app, proj (snd (onSend cl il v st)) = proj st.
Proof.
  intros Hgen Hfetch Heng Hcache Hstats Herr Hload Hevs st.
  assert (Hcatch : forall e st0,
            proj (snd (generate_catch e (during_generation il)
                         match v with Str s => s | Num _ => [] end st0))
            = proj st0).
  { intros e st0. unfold generate_catch.
    assert (G : keeps proj (generate e (during_generation il)
                         match v with Str s => s | Num _ => [] end)).
    { unfold generate.
      apply keeps_bind; [now apply keeps_exec|intros _].
      apply keeps_bind; [apply keeps_call|intros _].
      apply keeps_bind; [apply keeps_paragraphs_loop|intros a].
      apply keeps_bind; [apply keeps_call|intros stats].
      apply keeps_bind; [apply keeps_exec; apply Hstats|intros _].
      apply keeps_ret. }
    specialize (G st0).
    destruct (generate e (during_generation il) _ st0) as [[a|error] st1];
      simpl in *; [exact G|].
    now rewrite Herr, Hgen. }
  unfold onSend. destruct v as [n|s]; [reflexivity|].
  destruct (is_empty s); [reflexivity|].
  destruct (negb (isNaN_Number s)); [reflexivity|].
  destruct (only_digits_space_nonword s); [reflexivity|].
  destruct (negb (has_vowel s)); [reflexivity|].
  unfold translate. destruct (engine cl) as [e|].
  - rewrite Hcatch. apply Hgen.
  - assert (L : keeps proj (loadEngine (during_load il))).
    { unfold loadEngine.
      apply keeps_bind; [apply keeps_exec; apply Hfetch|intros _].
      apply keeps_bind; [now apply keeps_exec|intros _].
      apply keeps_bind; [apply keeps_call|intros e].
      apply keeps_bind; [apply keeps_exec; apply Hfetch|intros _].
      apply keeps_bind; [apply keeps_exec; apply Heng|intros _].
      apply keeps_bind; [apply keeps_call|intros c].
      apply keeps_bind; [apply keeps_exec; apply Hcache|intros _].
      apply keeps_ret. }
    specialize (L (setIsGenerating true st)).
    destruct (loadEngine (during_load il) (setIsGenerating true st))
      as [[e|error] st1]; simpl in *.
    + rewrite Hcatch, L. apply Hgen.
    + now rewrite Herr, Hgen, L.
Qed.

End Frames.

(** ** The flag and the list of translations across a row *)

Section Run.
Context {host : JSHost} {web_llm : EngineInterface}.

Lemma deliver_translations (evs : list event) (st : app) :
  translations (pending (deliver evs st)) = translations (pending st).
Proof.
  revert st; induction evs as [|ev evs IH]; intros st; [reflexivity|].
  change (deliver (ev :: evs) st) with (deliver evs (deliver1 ev st)).
  rewrite IH.
  destruct ev; simpl; [reflexivity|].
  destruct (isGenerating (rendered st)); [|reflexivity].
  unfold onStop. now destruct (engine (rendered st)).
Qed.

(** [onSend] does not touch the list of translations. *)
Lemma onSend_translations (cl : ui_state) (il : interleaving) (v : value)
    (st : app) :
  translations (pending (snd (onSend cl il v st))) = translations (pending st).
Proof.
  apply (onSend_keeps (fun st => translations (pending st)));
    try reflexivity; intros; apply deliver_translations.
Qed.

(** [onSend] writes the state [isGenerating], never the ref the loop reads:
    when no event reaches the application while it runs, the ref after it
    is the ref before it, whether it returned a text or caught an error. *)
Lemma onSend_flag (cl : ui_state) (il : interleaving) (v : value)
    (st : app) :
  during_load il = [] -> during_generation il = [] ->
  isGeneratingRef (snd (onSend cl il v st)) = isGeneratingRef st.
Proof.
  intros Hl Hg.
  apply (onSend_keeps isGeneratingRef); try reflexivity;
    intros; now rewrite ?Hl, ?Hg.
Qed.

(** A row around which no event is delivered leaves the flag as it was,
    also when its translation failed. *)
Lemma row_flag (cl : ui_state) (il : interleaving) (i : nat)
    (rs : run_state) :
  during_load il = [] -> during_generation il = [] -> at_boundary il = [] ->
  isGeneratingRef (rs_app (boundary il (row_body cl il i rs)))
  = isGeneratingRef (rs_app rs).
Proof.
  intros Hl Hg Hb. unfold boundary. rewrite Hb. simpl.
  unfold row_body.
  destruct (row_get (nth i (rs_grid rs) []) (columnIndex (sourceColumn cl)))
    as [v|]; [|reflexivity].
  destruct (truthy (Some v)); [|reflexivity].
  pose proof (onSend_flag cl il v (rs_app rs) Hl Hg) as H.
  destruct (onSend cl il v (rs_app rs)) as [response st1]. exact H.
Qed.

(** Whatever [onSend] does on a cell, the text it returns or the error it
    catches, the ref the loop reads is the one of before when no event
    reaches the application meanwhile: lines 250 and 172 write the state,
    not the ref. *)
Theorem onSend_does_not_write_the_ref (cl : ui_state) (il : interleaving)
    (v : value) (st : app) :
  during_load il = [] -> during_generation il = [] ->
  isGeneratingRef (snd (onSend cl il v st)) = isGeneratingRef st.
Proof. apply onSend_flag. Qed.

(** A commit after the [catch], in a render that had [isGenerating] true,
    runs the effect of lines 59-61 and lowers the ref. *)
Lemma commit_after_catch_lowers_flag (st : app) :
  isGenerating (pending st) = false ->
  isGenerating (rendered st) = true ->
  isGeneratingRef (commit st) = false.
Proof. intros Hp Hr. unfold commit. simpl. now rewrite Hp, Hr. Qed.

(** Stop on a page whose render has the engine and [isGenerating] true,
    then a commit: the ref is down. *)
Lemma stop_then_commit_lowers_flag (st : app) (e : Engine) :
  engine (rendered st) = Some e ->
  isGenerating (rendered st) = true ->
  isGeneratingRef (deliver [StopClick; Commit] st) = false.
Proof.
  intros He Hr. unfold deliver. simpl. rewrite Hr. unfold onStop.
  rewrite He. unfold commit. simpl. now rewrite Hr.
Qed.

(** With no event, the loop that started with the flag up goes through
    every row: a failed translation does not end it. *)
Lemma quiet_loop_step (cl : ui_state) (todo i : nat) (rs : run_state) :
  isGeneratingRef (rs_app rs) = true ->
  rows_loop cl quiet (S todo) i rs
  = rows_loop cl quiet todo (S i) (row_body cl (quiet i) i rs)
  /\ isGeneratingRef (rs_app (row_body cl (quiet i) i rs)) = true.
Proof.
  intros H. split.
  - simpl. rewrite H. simpl. f_equal.
    unfold boundary. simpl. now destruct (row_body cl (quiet i) i rs).
  - rewrite <- H. now apply (row_flag cl (quiet i) i rs).
Qed.

(** *** The [id]s of one run *)

Lemma In_firstn {A : Type} (x : A) (n : nat) (l : list A) :
  In x (firstn n l) -> In x l.
Proof.
  revert n; induction l as [|a l IH]; intros [|n]; simpl; try tauto.
  intros [H|H]; [now left|right; eauto].
Qed.

Lemma StronglySorted_firstn {A : Type} (R : A -> A -> Prop) (n : nat)
    (l : list A) :
  StronglySorted R l -> StronglySorted R (firstn n l).
Proof.
  revert n; induction l as [|a l IH]; intros [|n] H; simpl;
    try constructor.
  - apply IH. now inversion H.
  - inversion H; subst. rewrite Forall_forall in *.
    intros x Hx. apply In_firstn in Hx. auto.
Qed.

Lemma Forall_firstn {A : Type} (P : A -> Prop) (n : nat) (l : list A) :
  Forall P l -> Forall P (firstn n l).
Proof.
  rewrite !Forall_forall. intros H x Hx. apply In_firstn in Hx. auto.
Qed.

Lemma row_body_ids (cl : ui_state) (il : interleaving) (i : nat)
    (rs : run_state) :
  ids_in_order rs -> ids_in_order (boundary il (row_body cl il i rs)).
Proof.
  intros [Hs Hb]. unfold ids_in_order, boundary. simpl.
  rewrite deliver_translations. unfold row_body.
  destruct (row_get (nth i (rs_grid rs) []) (columnIndex (sourceColumn cl)))
    as [v|]; [|now split].
  destruct (truthy (Some v)); [|now split].
  pose proof (onSend_translations cl il v (rs_app rs)) as H.
  destruct (onSend cl il v (rs_app rs)) as [response st1].
  cbn [snd] in H. cbn [rs_app rs_nextId].
  change (translations (pending (setCurrentRow (i + 1)
            (addTranslation (rs_nextId rs) v (or_empty response) st1))))
    with (translations (pending
            (addTranslation (rs_nextId rs) v (or_empty response) st1))).
  rewrite addTranslation_spec, H. split.
  - constructor; [now apply StronglySorted_firstn|].
    apply Forall_firstn. exact Hb.
  - constructor; [cbn [id]; lia|].
    apply Forall_firstn. eapply Forall_impl; [|exact Hb].
    cbn beta. intros t Ht. lia.
Qed.

Lemma rows_loop_ids (cl : ui_state) (sched : schedule) (todo i : nat)
    (rs : run_state) :
  ids_in_order rs -> ids_in_order (rows_loop cl sched todo i rs).
Proof.
  revert i rs; induction todo as [|todo IH]; intros i rs H; [exact H|].
  simpl. destruct (isGeneratingRef (rs_app rs)); simpl; [|exact H].
  apply IH. now apply row_body_ids.
Qed.

(** Within one run that starts from an empty list, each translation gets
    an [id] greater than those of the translations added before it: along
    the list, newest first, the [id]s go strictly down. *)
Theorem ids_increase_within_a_run (sched : schedule) (jsonData : grid)
    (st : app) :
  translations (pending st) = [] ->
  StronglySorted (fun a b => id b < id a)
    (translations (pending (fst (handleFileUpload sched jsonData st)))).
Proof.
  intros H. unfold handleFileUpload.
  assert (H0 : ids_in_order (run_start jsonData st)).
  { unfold ids_in_order. simpl. rewrite H. split; constructor. }
  destruct (Z.ltb (startRow (rendered st) - 1) 0).
  - simpl. rewrite H. constructor.
  - simpl. eapply rows_loop_ids in H0. destruct H0 as [Hs _]. exact Hs.
Qed.

End Run.

(** * The claims on concrete sheets *)

Lemma postProcess_runaway_witness :
  3 * length (js "Hi") < length (js "Bonjour")
  /\ @postProcess integer_host (js "Hi") (js "Bonjour") = js "Hi".
Proof.
  split; [vm_compute; lia|].
  apply (@postProcess_runaway_is_input integer_host (js "Hi") (js "Bonjour")).
  vm_compute; lia.
Defined.

Lemma numeric_value_witness :
  @is_numeric integer_host (strv "42") = true
  /\ onSend (rendered (page says_bonjour true)) (quiet 0) (strv "42")
            (page says_bonjour true)
     = (Some (js "42"), page says_bonjour true).
Proof.
  split; [reflexivity|].
  apply (numeric_value_passes_through
           (rendered (page says_bonjour true)) (quiet 0)
           (strv "42") (page says_bonjour true)).
  reflexivity.
Defined.

Lemma clean_input_witness :
  has_punct (js "hello there") = false
  /\ has_punct (@postProcess integer_host (js "hello there")
                  (js "Bonjour, toi ! Ca va ?")) = false.
Proof.
  split; [reflexivity|].
  apply (@clean_input_gives_clean_output integer_host
           (scripted_engine says_bonjour) (js "hello there")).
  reflexivity.
Defined.

Lemma symbols_only_witness :
  onSend (rendered (page says_bonjour true)) (quiet 0)
         (@Str integer_host [233; 32; 232; 49; 33]%N) (page says_bonjour true)
  = (Some [233; 32; 232; 49; 33]%N, page says_bonjour true).
Proof.
  apply (symbols_only_passes_through
           (rendered (page says_bonjour true)) (quiet 0)
           (page says_bonjour true)).
  - discriminate.
  - repeat (apply Forall_cons;
            [first [left; reflexivity
                   |right; left; reflexivity
                   |right; right; reflexivity]|]).
    apply Forall_nil.
Defined.

(** Stop pressed while the second of five rows is in flight: the flag is
    down after two rows, the file holds the two translated rows and the
    three others as they were. *)
Lemma stop_after_second_row_witness :
  (1 <= startRow (rendered (page says_bonjour true)))%Z
  /\ isGeneratingRef
       (rs_app (rows_loop (rendered (page says_bonjour true))
                  stop_during_second_row 2 1
                  (run_start five_rows (page says_bonjour true)))) = false
  /\ snd (handleFileUpload stop_during_second_row five_rows
            (page says_bonjour true))
     = Some [ [str "id"; str "text"];
              [num 1; str "one"; str "bonjour"];
              [num 2; str "two"; str "bonjour"];
              [num 3; str "three"; str "keep"];
              [num 4; str "four"];
              [num 5; str "five"] ].
Proof.
  split; [discriminate|].
  split; [reflexivity|].
  destruct (stop_leaves_later_rows stop_during_second_row five_rows
              (page says_bonjour true) 2) as (_ & E & _).
  - discriminate.
  - apply le_S, le_S, le_S, le_n.
  - reflexivity.
  - rewrite E. reflexivity.
Defined.

(** The first completion throws while the row of [hello] is in flight:
    [onSend] returns nothing, and the row gets the empty string over [old]
    and a translation to the empty string. *)
Lemma no_result_witness :
  fst (onSend (rendered (page fails_first true)) (quiet 1) (strv "hello")
         (rs_app (run_start three_rows (page fails_first true)))) = None
  /\ nth 1 (rs_grid (row_body (rendered (page fails_first true)) (quiet 1) 1
                       (run_start three_rows (page fails_first true)))) []
     = [num 1; str "hello"; str ""]
  /\ hd_error
       (translations
          (pending (rs_app (row_body (rendered (page fails_first true))
                              (quiet 1) 1
                              (run_start three_rows
                                 (page fails_first true))))))
     = Some {| input := strv "hello"; output := []; id := 0 |}.
Proof.
  assert (F : fst (onSend (rendered (page fails_first true)) (quiet 1)
                     (strv "hello")
                     (rs_app (run_start three_rows (page fails_first true))))
              = None) by reflexivity.
  split; [exact F|].
  pose proof (surjective_pairing
                (onSend (rendered (page fails_first true)) (quiet 1)
                   (strv "hello")
                   (rs_app (run_start three_rows (page fails_first true)))))
    as P.
  rewrite F in P.
  destruct (no_result_writes_empty_string
              (rendered (page fails_first true)) (quiet 1) 1
              (run_start three_rows (page fails_first true))
              (strv "hello") _ eq_refl eq_refl P)
    as (G & _ & T).
  split; [rewrite G; reflexivity|rewrite T; reflexivity].
Defined.

(** C5, evaluated where it fails: of two rows whose source cells hold the
    numbers 0 and 7, the loop passes over the first, [if (value)] being
    false of 0 (line 311): its destination cell is not written and no
    translation is added for it. The row of 7 gets [7] in column C and the
    only translation. The engine is not called. *)
Theorem numeric_zero_is_passed_over :
  handleFileUpload quiet zero_and_seven (page says_bonjour true)
  = (fst (handleFileUpload quiet zero_and_seven (page says_bonjour true)),
     Some [ [str "id"; str "amount"];
            [num 1; num 0];
            [num 2; num 7; str "7"] ])
  /\ translations
       (pending (fst (handleFileUpload quiet zero_and_seven
                        (page says_bonjour true))))
     = [ {| input := numv 7; output := js "7"; id := 0 |} ]
  /\ truthy (num 0) = false
  /\ onSend (rendered (page says_bonjour true)) (quiet 1) (numv 0)
            (page says_bonjour true)
     = (Some (js "0"), page says_bonjour true).
Proof. repeat split; reflexivity. Qed.

(** C7, evaluated where it fails: the engine throws on the first completion,
    asked for the row of [hello]. The [catch] of lines 249-255 sets the state
    [isGenerating] to false and the error message, and [onSend] returns
    nothing; the ref the loop reads at line 306 is still true, no commit
    having run the effect of lines 59-61. The loop goes on: the row of
    [world] is translated and the row of [42] is copied, and the file holds
    them. *)
Theorem run_continues_after_engine_error :
  fst (onSend (rendered (page fails_first true)) (quiet 1) (strv "hello")
         (rs_app (run_start three_rows (page fails_first true)))) = None
  /\ isGenerating
       (pending (snd (onSend (rendered (page fails_first true)) (quiet 1)
                        (strv "hello")
                        (rs_app (run_start three_rows
                                   (page fails_first true)))))) = false
  /\ isGeneratingRef
       (snd (onSend (rendered (page fails_first true)) (quiet 1)
               (strv "hello")
               (rs_app (run_start three_rows (page fails_first true)))))
     = true
  /\ snd (handleFileUpload quiet three_rows (page fails_first true))
     = Some [ [str "id"; str "text"; str "french"];
              [num 1; str "hello"; str ""];
              [num 2; str "world"; str "bonjour"];
              [num 3; str "42"; str "42"] ]
  /\ errorBrowserMessage
       (pending (fst (handleFileUpload quiet three_rows
                        (page fails_first true))))
     = Some (js "Error. Please try again.").
Proof. repeat split; reflexivity. Qed.

(** C8, evaluated where it fails: two sheets of one row uploaded one after
    the other. Each run starts from the [nextId] that line 63 set to 0 when
    its handler was created, so the translation of the second run gets the
    [id] 0, which the translation of the first run, still in the list,
    already has. *)
Theorem ids_restart_at_each_upload :
  map (fun t => (input t, id t)) (translations (pending two_uploads))
  = [ (strv "dog", 0); (strv "cat", 0) ]
  /\ ~ StronglySorted (fun a b => id b < id a)
         (translations (pending two_uploads)).
Proof.
  assert (E : translations (pending two_uploads)
              = [ {| input := strv "dog"; output := js "bonjour"; id := 0 |};
                  {| input := strv "cat"; output := js "bonjour"; id := 0 |} ])
    by reflexivity.
  rewrite E. split; [reflexivity|].
  intros H. inversion H as [|a l Hs Hf]; subst.
  inversion Hf as [|b l' Hlt _]; subst. cbn [id] in Hlt. lia.
Qed.

Lemma ids_increase_witness :
  translations (pending (page says_bonjour true)) = []
  /\ StronglySorted (fun a b => id b < id a)
       (translations
          (pending (fst (handleFileUpload quiet five_rows
                           (page says_bonjour true))))).
Proof.
  split; [reflexivity|].
  apply (ids_increase_within_a_run quiet five_rows (page says_bonjour true)).
  reflexivity.
Defined.

(** A row whose source cell is the empty string is passed over. *)
Lemma blank_source_row_witness :
  rs_grid (row_body (rendered (page says_bonjour true)) (quiet 2) 2
             {| rs_app := page says_bonjour true;
                rs_grid := [ [str "id"; str "text"]; [num 1];
                             [num 2; str ""; str "kept"] ];
                rs_nextId := 0 |})
  = [ [str "id"; str "text"]; [num 1]; [num 2; str ""; str "kept"] ].
Proof.
  apply (blank_source_row_is_passed_over
           (rendered (page says_bonjour true)) (quiet 2) 2
           {| rs_app := page says_bonjour true;
              rs_grid := [ [str "id"; str "text"]; [num 1];
                           [num 2; str ""; str "kept"] ];
              rs_nextId := 0 |}).
  right. reflexivity.
Defined.

Lemma truthy_source_row_witness :
  row_get (nth 1 (rs_grid (row_body (rendered (page says_bonjour true))
                             (quiet 1) 1
                             (run_start five_rows (page says_bonjour true))))
               []) (Some 2%Z)
  = str "bonjour".
Proof.
  pose proof (surjective_pairing
                (onSend (rendered (page says_bonjour true)) (quiet 1)
                   (strv "one")
                   (rs_app (run_start five_rows (page says_bonjour true)))))
    as P.
  assert (F : fst (onSend (rendered (page says_bonjour true)) (quiet 1)
                     (strv "one")
                     (rs_app (run_start five_rows
                                (page says_bonjour true))))
              = Some (js "bonjour")) by reflexivity.
  rewrite F in P.
  apply (truthy_source_row_is_written
           (rendered (page says_bonjour true)) (quiet 1) 1
           (run_start five_rows (page says_bonjour true))
           (strv "one") (js "bonjour") _ 2 eq_refl eq_refl P).
  - apply le_S, le_S, le_S, le_S, le_n.
  - reflexivity.
  - discriminate.
Defined.

Lemma onSend_ref_witness :
  isGeneratingRef
    (snd (onSend (rendered (page fails_first true)) (quiet 1)
            (strv "hello")
            (rs_app (run_start three_rows (page fails_first true)))))
  = isGeneratingRef (rs_app (run_start three_rows (page fails_first true))).
Proof.
  apply (onSend_does_not_write_the_ref
           (rendered (page fails_first true)) (quiet 1) (strv "hello")
           (rs_app (run_start three_rows (page fails_first true))));
    reflexivity.
Defined.

(** * More properties of the code *)

(** ** Words, paragraphs and requests *)



Lemma paragraphs_loop_pure_cons (f : jsstring -> jsstring) (c : N)
    (p : jsstring) (rest : list jsstring) (acc : jsstring) :
  paragraphs_loop (pure_model f) ((c :: p) :: rest) acc tt
  = paragraphs_loop (pure_model f) rest
      (if is_empty rest then acc ++ f (c :: p)
       else acc ++ f (c :: p) ++ [LF]) tt.
Proof. destruct rest; reflexivity. Qed.

Lemma paragraphs_loop_pure (f : jsstring -> jsstring)
    (ps : list jsstring) (acc : jsstring) :
  ps <> [] ->
  paragraphs_loop (pure_model f) ps acc tt
  = (inl (acc ++ join LF (map (translated_by f) ps)
              ++ (if is_empty (last ps []) then [LF] else [])), tt).
Proof.
  revert acc; induction ps as [|p ps IH]; intros acc Hne; [contradiction|].
  destruct ps as [|q ps].
  - destruct p as [|c p]; simpl; [reflexivity|].
    unfold translated_by. simpl. now rewrite !app_nil_r.
  - assert (Hq : q :: ps <> []) by discriminate.
    change (last (p :: q :: ps) []) with (last (q :: ps) []).
    change (join LF (map (translated_by f) (p :: q :: ps)))
      with (translated_by f p ++ [LF]
            ++ join LF (map (translated_by f) (q :: ps))).
    destruct p as [|c p].
    + rewrite paragraphs_loop_blank, (IH _ Hq).
      unfold translated_by at 2. cbn [is_empty].
      now rewrite <- !app_assoc.
    + rewrite paragraphs_loop_pure_cons, (IH _ Hq).
      unfold translated_by at 2. cbn [is_empty].
      now rewrite <- !app_assoc.
Qed.

(** Whatever pure function stands for the model, the reassembled text is
    the translations of the paragraphs joined by newlines in their order,
    a blank paragraph staying blank at its place, and one newline more
    when the text is empty or ends with a newline. *)
Theorem blank_lines_keep_their_place (f : jsstring -> jsstring)
    (text : jsstring) :
  paragraphs_loop (pure_model f) (split LF text) [] tt
  = (inl (join LF (map (translated_by f) (split LF text))
          ++ (if ends_blank text then [LF] else [])), tt).
Proof.
  rewrite (paragraphs_loop_pure f (split LF text) [] (split_not_nil LF text)).
  now rewrite last_split_empty.
Qed.

Section Requests.
Context {host : JSHost} {web_llm : EngineInterface}.

Lemma translateParagraph_request (e : Engine) (paragraph : jsstring)
    (st : app) :
  translateParagraph e paragraph st
  = bind (call (CallCreate (request_for paragraph))
               (chat_completions_create e (request_for paragraph)))
         (fun completion => ret (concat_deltas completion)) st.
Proof. reflexivity. Qed.

Lemma translateParagraph_calls (e : Engine) (paragraph : jsstring)
    (st : app) :
  calls (snd (translateParagraph e paragraph st))
  = calls st ++ [CallCreate (request_for paragraph)].
Proof.
  rewrite translateParagraph_request. unfold bind, call, ret.
  destruct (chat_completions_create e (request_for paragraph) (world st))
    as [[completion|error] w]; reflexivity.
Qed.


(** The calls of the paragraph loop: one request for each non-empty
    paragraph in order, up to the first that throws. *)
Lemma paragraphs_loop_calls (e : Engine) (ps : list jsstring)
    (acc : jsstring) (st : app) :
  exists n : nat,
    calls (snd (paragraphs_loop (translateParagraph e) ps acc st))
    = calls st
      ++ map (fun p => CallCreate (request_for p))
             (firstn n (filter (fun p => negb (is_empty p)) ps))
    /\ (forall a, fst (paragraphs_loop (translateParagraph e) ps acc st)
                  = inl a ->
        firstn n (filter (fun p => negb (is_empty p)) ps)
        = filter (fun p => negb (is_empty p)) ps).
Proof.
  revert acc st; induction ps as [|p ps IH]; intros acc st.
  - exists 0. simpl. now rewrite app_nil_r.
  - simpl paragraphs_loop. destruct (is_empty p) eqn:Ep.
    + simpl filter. rewrite Ep. simpl. apply IH.
    + simpl filter. rewrite Ep. cbn [negb].
      pose proof (translateParagraph_calls e p st) as Hc.
      destruct (translateParagraph e p st) as [[t|error] st1];
        cbn [snd] in Hc.
      * destruct (negb (is_empty ps)).
        -- destruct (IH (acc ++ t ++ [LF]) st1) as (n & Hn & Hs).
           exists (S n). rewrite Hn, Hc. cbn [firstn map].
           rewrite <- app_assoc. split; [reflexivity|].
           intros a Ha. f_equal. eauto.
        -- destruct (IH (acc ++ t) st1) as (n & Hn & Hs).
           exists (S n). rewrite Hn, Hc. cbn [firstn map].
           rewrite <- app_assoc. split; [reflexivity|].
           intros a Ha. f_equal. eauto.
      * exists 1. cbn [snd fst firstn map]. split; [exact Hc|].
        intros a Ha. discriminate.
Qed.

End Requests.

(** ** The calls of one translation *)

Section Calls.
Context {host : JSHost} {web_llm : EngineInterface}.

Lemma call_calls {A : Type} (c : engine_call)
    (op : World -> (A + exn) * World) (st : app) :
  calls (snd (call c op st)) = calls st ++ [c].
Proof. unfold call. now destruct (op (world st)). Qed.




End Calls.

(** ** The list of calls only grows *)

Section Appends.
Context {host : JSHost} {web_llm : EngineInterface}.

Lemma appends_ret {A : Type} (a : A) : appends (ret a).
Proof. intros st. exists []. simpl. now rewrite app_nil_r. Qed.

Lemma appends_bind {A B : Type} (c : M A) (k : A -> M B) :
  appends c -> (forall a, appends (k a)) -> appends (bind c k).
Proof.
  intros Hc Hk st. unfold bind. destruct (Hc st) as [l Hl].
  destruct (c st) as [[a|error] st1]; cbn [snd] in *.
  - destruct (Hk a st1) as [l' Hl']. exists (l ++ l').
    now rewrite Hl', Hl, app_assoc.
  - now exists l.
Qed.

Lemma appends_exec (f : app -> app) :
  (forall st, exists l, calls (f st) = calls st ++ l) -> appends (exec f).
Proof. intros H st. apply H. Qed.

Lemma appends_setter (f : ui_state -> ui_state) :
  appends (exec (with_pending f)).
Proof. intros st. exists []. simpl. now rewrite app_nil_r. Qed.

Lemma appends_call {A : Type} (c : engine_call)
    (op : World -> (A + exn) * World) : appends (call c op).
Proof. intros st. exists [c]. apply call_calls. Qed.

Lemma deliver_appends (evs : list event) (st : app) :
  exists l : list engine_call, calls (deliver evs st) = calls st ++ l.
Proof.
  revert st; induction evs as [|ev evs IH]; intros st.
  - exists []. simpl. now rewrite app_nil_r.
  - change (deliver (ev :: evs) st) with (deliver evs (deliver1 ev st)).
    destruct (IH (deliver1 ev st)) as [l Hl]. rewrite Hl.
    assert (H1 : exists l1, calls (deliver1 ev st) = calls st ++ l1).
    { destruct ev; simpl.
      - exists []. now rewrite app_nil_r.
      - destruct (isGenerating (rendered st)).
        + unfold onStop. destruct (engine (rendered st)).
          * now exists [CallInterrupt].
          * exists []. now rewrite app_nil_r.
        + exists []. now rewrite app_nil_r. }
    destruct H1 as [l1 H1]. exists (l1 ++ l). now rewrite H1, app_assoc.
Qed.

Lemma appends_paragraphs_loop (e : Engine) (ps : list jsstring)
    (acc : jsstring) :
  appends (paragraphs_loop (translateParagraph e) ps acc).
Proof.
  intros st. destruct (paragraphs_loop_calls e ps acc st) as (n & Hn & _).
  eauto.
Qed.

Lemma appends_generate (e : Engine) (evs : list event) (s : jsstring) :
  appends (generate e evs s).
Proof.
  unfold generate.
  apply appends_bind; [apply appends_exec, deliver_appends|intros _].
  apply appends_bind; [apply appends_call|intros _].
  apply appends_bind; [apply appends_paragraphs_loop|intros a].
  apply appends_bind; [apply appends_call|intros stats].
  apply appends_bind; [apply appends_setter|intros _].
  apply appends_ret.
Qed.

(** The [try] block calls [resetChat], so it always adds a call. *)
Lemma generate_adds_a_call (e : Engine) (evs : list event) (s : jsstring)
    (st : app) :
  length (calls st) < length (calls (snd (generate e evs s st))).
Proof.
  unfold generate.
  unfold bind at 1. unfold exec at 1.
  destruct (deliver_appends evs st) as [l0 H0].
  set (st0 := deliver evs st) in *.
  unfold bind at 1.
  pose proof (call_calls CallResetChat (resetChat e) st0) as Hr.
  destruct (call CallResetChat (resetChat e) st0) as [[u|error] st1];
    cbn [snd] in Hr |- *.
  - match goal with
    | |- _ < length (calls (snd (?c st1))) =>
        assert (Hrest : appends c)
    end.
    { apply appends_bind; [apply appends_paragraphs_loop|intros a].
      apply appends_bind; [apply appends_call|intros stats].
      apply appends_bind; [apply appends_setter|intros _].
      apply appends_ret. }
    destruct (Hrest st1) as [l Hl]. rewrite Hl, Hr, H0.
    rewrite !length_app. simpl. lia.
  - rewrite Hr, H0, !length_app. simpl. lia.
Qed.

Lemma generate_catch_adds_a_call (e : Engine) (evs : list event)
    (s : jsstring) (st : app) :
  length (calls st) < length (calls (snd (generate_catch e evs s st))).
Proof.
  unfold generate_catch. pose proof (generate_adds_a_call e evs s st) as H.
  destruct (generate e evs s st) as [[a|error] st1]; exact H.
Qed.

Lemma appends_loadEngine (evs : list event) : appends (loadEngine evs).
Proof.
  unfold loadEngine.
  apply appends_bind; [apply appends_setter|intros _].
  apply appends_bind; [apply appends_exec, deliver_appends|intros _].
  apply appends_bind; [apply appends_call|intros e].
  apply appends_bind; [apply appends_setter|intros _].
  apply appends_bind; [apply appends_setter|intros _].
  apply appends_bind; [apply appends_call|intros c].
  apply appends_bind; [apply appends_setter|intros _].
  apply appends_ret.
Qed.

(** Lines 164-255 always call the engine or its loader. *)
Lemma translate_adds_a_call (cl : ui_state) (il : interleaving)
    (s : jsstring) (st : app) :
  length (calls st) < length (calls (snd (translate cl il s st))).
Proof.
  unfold translate. destruct (engine cl) as [e|].
  - apply (generate_catch_adds_a_call e (during_generation il) s
             (setIsGenerating true st)).
  - destruct (appends_loadEngine (during_load il) (setIsGenerating true st))
      as [l Hl].
    change (calls (setIsGenerating true st)) with (calls st) in Hl.
    assert (Hlen : length (calls st)
                   < length (calls (snd (loadEngine (during_load il)
                                           (setIsGenerating true st))))).
    { clear l Hl. unfold loadEngine.
      unfold bind at 1. unfold exec at 1. cbn [fst snd].
      unfold bind at 1. unfold exec at 1. cbn [fst snd].
      set (st0 := deliver (during_load il)
                    (setIsFetching true (setIsGenerating true st))).
      destruct (deliver_appends (during_load il)
                  (setIsFetching true (setIsGenerating true st)))
        as [l0 H0].
      fold st0 in H0.
      change (calls (setIsFetching true (setIsGenerating true st)))
        with (calls st) in H0.
      unfold bind at 1.
      pose proof (call_calls CallCreateEngine CreateWebWorkerEngine st0)
        as Hc.
      destruct (call CallCreateEngine CreateWebWorkerEngine st0)
        as [[e|error] st1]; cbn [snd] in Hc |- *.
      - match goal with
        | |- _ < length (calls (snd (?c st1))) =>
            assert (Hrest : appends c)
        end.
        { apply appends_bind; [apply appends_setter|intros _].
          apply appends_bind; [apply appends_setter|intros _].
          apply appends_bind; [apply appends_call|intros c].
          apply appends_bind; [apply appends_setter|intros _].
          apply appends_ret. }
        destruct (Hrest st1) as [l Hl]. rewrite Hl, Hc, H0.
        rewrite !length_app. simpl. lia.
      - rewrite Hc, H0, !length_app. simpl. lia. }
    destruct (loadEngine (during_load il) (setIsGenerating true st))
      as [[e|error] st1]; cbn [snd] in Hlen |- *.
    + pose proof (generate_catch_adds_a_call e (during_generation il) s st1).
      lia.
    + exact Hlen.
Qed.

(** The engine, or its loader, is called for a value exactly when the
    value is a string that gets past the tests of lines 146-162: one that
    is not blank, that [Number] does not read, that has a letter or an
    underscore, and that has a vowel. For every other value the list of
    calls is the one of before. *)
Theorem engine_called_exactly_for_prose (cl : ui_state) (il : interleaving)
    (v : value) (st : app) :
  calls (snd (onSend cl il v st)) <> calls st
  <-> exists s : jsstring, v = Str s /\ needs_model s = true.
Proof.
  split.
  - intros H. destruct v as [n|s]; [now contradiction H|].
    exists s. split; [reflexivity|]. unfold needs_model.
    unfold onSend in H.
    destruct (is_empty s); [now contradiction H|].
    destruct (isNaN_Number s); [|now contradiction H].
    destruct (only_digits_space_nonword s); [now contradiction H|].
    destruct (has_vowel s); [reflexivity|now contradiction H].
  - intros (s & -> & Hs). unfold needs_model in Hs.
    apply andb_true_iff in Hs as [Hs Hv].
    apply andb_true_iff in Hs as [Hs Hw].
    apply andb_true_iff in Hs as [He Hn].
    unfold onSend.
    destruct (is_empty s); [discriminate|]. rewrite Hn. cbn [negb].
    destruct (only_digits_space_nonword s); [discriminate|].
    rewrite Hv. cbn [negb].
    pose proof (translate_adds_a_call cl il s st) as Hlt.
    intros E. rewrite E in Hlt. lia.
Qed.

End Appends.

(** ** More on what [onSend] returns *)

Section Results.
Context {host : JSHost} {web_llm : EngineInterface}.

(** A string that is not blank and does not need the model (it reads as a
    number, or has no letter and no underscore, or has no vowel) comes back
    as it is, and the application is left as it was. *)
Theorem other_strings_come_back (cl : ui_state) (il : interleaving)
    (s : jsstring) (st : app) :
  s <> [] -> needs_model s = false ->
  onSend cl il (Str s) st = (Some s, st).
Proof.
  intros Hne H. apply onSend_short_circuit; [exact Hne|].
  unfold needs_model in H. destruct s as [|c s]; [contradiction|].
  cbn [is_empty negb andb] in H.
  destruct (isNaN_Number (c :: s)); [|reflexivity].
  destruct (only_digits_space_nonword (c :: s)); [reflexivity|].
  destruct (has_vowel (c :: s)); [discriminate|reflexivity].
Qed.

(** When [onSend] returns nothing for a string that is not blank, it has
    set an error message and set the state [isGenerating] to false: both
    [catch] blocks end that way, whatever came in meanwhile. *)
Theorem no_result_leaves_an_error (cl : ui_state) (il : interleaving)
    (s : jsstring) (st st' : app) :
  s <> [] ->
  onSend cl il (Str s) st = (None, st') ->
  errorBrowserMessage (pending st') <> None
  /\ isGenerating (pending st') = false.
Proof.
  intros Hne. unfold onSend.
  destruct s as [|c s]; [contradiction|]. cbn [is_empty].
  destruct (negb (isNaN_Number (c :: s))); [discriminate|].
  destruct (only_digits_space_nonword (c :: s)); [discriminate|].
  destruct (negb (has_vowel (c :: s))); [discriminate|].
  assert (Hcatch : forall e st0,
            generate_catch e (during_generation il) (c :: s) st0
            = (None, st') ->
            errorBrowserMessage (pending st') <> None
            /\ isGenerating (pending st') = false).
  { intros e st0. unfold generate_catch.
    destruct (generate e (during_generation il) (c :: s) st0)
      as [[a|error] st1]; [discriminate|].
    intros H. inversion H; subst. simpl. split; [discriminate|reflexivity]. }
  unfold translate. destruct (engine cl) as [e|]; [apply Hcatch|].
  destruct (loadEngine (during_load il) (setIsGenerating true st))
    as [[e|error] st1]; [apply Hcatch|].
  intros H. inversion H; subst. simpl. split; [discriminate|reflexivity].
Qed.




(** *** Loading the engine from [onSend] *)

(** When the render the handler closed over has no engine, a string that
    needs the model makes [onSend] create an engine first, whatever engine
    the state holds by then: a run that started before the engine was
    loaded creates one for every such cell. *)
Theorem closure_without_engine_loads_again (cl : ui_state)
    (il : interleaving) (s : jsstring) (st : app) :
  engine cl = None -> during_load il = [] -> needs_model s = true ->
  exists rest : list engine_call,
    calls (snd (onSend cl il (Str s) st))
    = calls st ++ CallCreateEngine :: rest.
Proof.
  intros He Hl Hs. unfold needs_model in Hs.
  apply andb_true_iff in Hs as [Hs Hv].
  apply andb_true_iff in Hs as [Hs Hw].
  apply andb_true_iff in Hs as [Hb Hn].
  unfold onSend. destruct (is_empty s); [discriminate|].
  rewrite Hn. cbn [negb].
  destruct (only_digits_space_nonword s); [discriminate|].
  rewrite Hv. cbn [negb].
  unfold translate. rewrite He, Hl. unfold loadEngine.
  unfold bind at 1. unfold exec at 1. cbn [fst snd].
  unfold bind at 1. unfold exec at 1. cbn [fst snd deliver fold_left].
  unfold bind at 1.
  set (st0 := setIsFetching true (setIsGenerating true st)).
  pose proof (call_calls CallCreateEngine CreateWebWorkerEngine st0) as Hc.
  change (calls st0) with (calls st) in Hc.
  destruct (call CallCreateEngine CreateWebWorkerEngine st0)
    as [[e|error] st1]; cbn [snd] in Hc.
  - match goal with
    | |- context [match ?c st1 with _ => _ end] =>
        assert (Hrest : appends c)
    end.
    { apply appends_bind; [apply appends_setter|intros _].
      apply appends_bind; [apply appends_setter|intros _].
      apply appends_bind; [apply appends_call|intros c].
      apply appends_bind; [apply appends_setter|intros _].
      apply appends_ret. }
    destruct (Hrest st1) as [l Hl1].
    match goal with
    | |- context [match ?c st1 with _ => _ end] =>
        destruct (c st1) as [[e'|error] st2]
    end; cbn [snd] in Hl1.
    + unfold generate_catch.
      destruct (appends_generate e' (during_generation il) s st2)
        as [l2 Hl2].
      destruct (generate e' (during_generation il) s st2)
        as [[a|error] st3]; cbn [snd] in Hl2 |- *.
      * exists (l ++ l2). rewrite Hl2, Hl1, Hc, <- !app_assoc. reflexivity.
      * exists (l ++ l2).
        change (calls (setErrorBrowserMessage _ (setIsGenerating false st3)))
          with (calls st3).
        rewrite Hl2, Hl1, Hc, <- !app_assoc. reflexivity.
    + exists l. cbn [snd].
      change (calls (setErrorBrowserMessage _ (setIsGenerating false st2)))
        with (calls st2).
      rewrite Hl1, Hc, <- !app_assoc. reflexivity.
  - exists []. cbn [snd].
    change (calls (setErrorBrowserMessage _ (setIsGenerating false st1)))
      with (calls st1).
    exact Hc.
Qed.

(** When the creation of the engine throws, [onSend] returns nothing, the
    message names the error, the state holds no new engine, and
    [isFetching], set to true before the call, is left true: nothing sets
    it back. *)
Theorem engine_creation_failure (cl : ui_state) (il : interleaving)
    (s : jsstring) (st : app) (error : exn) (w : World) :
  engine cl = None -> during_load il = [] -> needs_model s = true ->
  CreateWebWorkerEngine (world st) = (inr error, w) ->
  fst (onSend cl il (Str s) st) = None
  /\ errorBrowserMessage (pending (snd (onSend cl il (Str s) st)))
     = Some (js "Could not load the model because " ++ error)
  /\ isFetching (pending (snd (onSend cl il (Str s) st))) = true
  /\ isGenerating (pending (snd (onSend cl il (Str s) st))) = false
  /\ engine (pending (snd (onSend cl il (Str s) st))) = engine (pending st)
  /\ calls (snd (onSend cl il (Str s) st)) = calls st ++ [CallCreateEngine].
Proof.
  intros He Hl Hs Hw.
  assert (E : onSend cl il (Str s) st
              = (None,
                 setErrorBrowserMessage
                   (Some (js "Could not load the model because " ++ error))
                   (setIsGenerating false
                      {| pending :=
                           pending (setIsFetching true
                                      (setIsGenerating true st));
                         rendered := rendered st;
                         isGeneratingRef := isGeneratingRef st;
                         world := w;
                         calls := calls st ++ [CallCreateEngine] |}))).
  { unfold needs_model in Hs.
    apply andb_true_iff in Hs as [Hs Hv].
    apply andb_true_iff in Hs as [Hs Hd].
    apply andb_true_iff in Hs as [Hb Hn].
    unfold onSend. destruct (is_empty s); [discriminate|].
    rewrite Hn. cbn [negb].
    destruct (only_digits_space_nonword s); [discriminate|].
    rewrite Hv. cbn [negb].
    unfold translate. rewrite He, Hl.
    unfold loadEngine, bind, exec, call. cbn [deliver fold_left].
    change (world (setIsFetching true (setIsGenerating true st)))
      with (world st).
    rewrite Hw. reflexivity. }
  rewrite E. cbn [fst snd].
  split; [reflexivity|]. split; [reflexivity|]. split; [reflexivity|].
  split; [reflexivity|]. split; reflexivity.
Qed.

End Results.

(** ** Stop without a commit *)

Section Stop.
Context {host : JSHost} {web_llm : EngineInterface}.


End Stop.

(** ** What a run changes in the sheet *)

Section Sheet.
Context {host : JSHost} {web_llm : EngineInterface}.

Lemma nth_array_set_other (a : row) (n m : nat) (x : option value) :
  m <> n -> nth m (array_set a n x) None = nth m a None.
Proof.
  revert a m; induction n as [|n IH]; intros [|h t] [|m] H; simpl;
    try reflexivity; try contradiction.
  - now destruct m.
  - rewrite IH by lia. now destruct m.
  - apply IH. lia.
Qed.

(** Writing a cell of a row changes no other column of the row. *)
Lemma row_get_set_other (r : row) (index c : option Z) (v : value) :
  c <> index -> row_get (row_set r index v) c = row_get r c.
Proof.
  intros H. unfold row_set. destruct index as [z|]; [|reflexivity].
  destruct (Z.ltb_spec z 0); [reflexivity|].
  unfold row_get. destruct c as [z'|]; [|reflexivity].
  destruct (Z.ltb_spec z' 0); [reflexivity|].
  apply nth_array_set_other. intros E. apply H. f_equal. lia.
Qed.

Lemma grid_set_out_of_range (g : grid) (i : nat) (r : row) :
  length g <= i -> grid_set g i r = g.
Proof.
  revert i; induction g as [|h t IH]; intros [|i] H; simpl in *;
    try reflexivity; try lia.
  f_equal. apply IH. lia.
Qed.

Lemma row_body_length (cl : ui_state) (il : interleaving) (i : nat)
    (rs : run_state) :
  length (rs_grid (row_body cl il i rs)) = length (rs_grid rs).
Proof.
  unfold row_body.
  destruct (row_get (nth i (rs_grid rs) []) (columnIndex (sourceColumn cl)))
    as [v|]; [|reflexivity].
  destruct (truthy (Some v)); [|reflexivity].
  destruct (onSend cl il v (rs_app rs)) as [response st1]. simpl.
  apply grid_set_length.
Qed.

Lemma row_body_other_columns (cl : ui_state) (il : interleaving)
    (i j : nat) (rs : run_state) (c : option Z) :
  c <> columnIndex (destinationColumn cl) ->
  row_get (nth j (rs_grid (row_body cl il i rs)) []) c
  = row_get (nth j (rs_grid rs) []) c.
Proof.
  intros Hc. unfold row_body.
  destruct (row_get (nth i (rs_grid rs) []) (columnIndex (sourceColumn cl)))
    as [v|]; [|reflexivity].
  destruct (truthy (Some v)); [|reflexivity].
  destruct (onSend cl il v (rs_app rs)) as [response st1]. cbn [rs_grid].
  destruct (Nat.eq_dec j i) as [->|Hne];
    [|now rewrite nth_grid_set_other].
  destruct (Nat.lt_ge_cases i (length (rs_grid rs))) as [Hi|Hi].
  - rewrite nth_grid_set_same by exact Hi. now apply row_get_set_other.
  - now rewrite grid_set_out_of_range.
Qed.

Lemma rows_loop_length (cl : ui_state) (sched : schedule) (todo i : nat)
    (rs : run_state) :
  length (rs_grid (rows_loop cl sched todo i rs)) = length (rs_grid rs).
Proof.
  revert i rs; induction todo as [|todo IH]; intros i rs; [reflexivity|].
  simpl. destruct (isGeneratingRef (rs_app rs)); simpl; [|reflexivity].
  rewrite IH. unfold boundary. simpl. apply row_body_length.
Qed.

Lemma rows_loop_other_columns (cl : ui_state) (sched : schedule)
    (todo i j : nat) (rs : run_state) (c : option Z) :
  c <> columnIndex (destinationColumn cl) ->
  row_get (nth j (rs_grid (rows_loop cl sched todo i rs)) []) c
  = row_get (nth j (rs_grid rs) []) c.
Proof.
  intros Hc. revert i rs; induction todo as [|todo IH]; intros i rs;
    [reflexivity|].
  simpl. destruct (isGeneratingRef (rs_app rs)); simpl; [|reflexivity].
  rewrite IH. unfold boundary. simpl. now apply row_body_other_columns.
Qed.

(** The rows a run hands to the writer of the file are as many as the
    rows of the input; in every row, every column other than the
    destination column reads as in the input; and the rows above the start
    row are the rows of the input, their destination cell included. This
    holds for every schedule and every engine. *)
Theorem run_changes_only_destination_cells (sched : schedule)
    (jsonData out : grid) (st : app) :
  snd (handleFileUpload sched jsonData st) = Some out ->
  length out = length jsonData
  /\ (forall (j : nat) (c : option Z),
        c <> columnIndex (destinationColumn (rendered st)) ->
        row_get (nth j out []) c = row_get (nth j jsonData []) c)
  /\ (forall j : nat,
        (Z.of_nat j < startRow (rendered st) - 1)%Z ->
        nth j out [] = nth j jsonData []).
Proof.
  unfold handleFileUpload.
  destruct (Z.ltb_spec (startRow (rendered st) - 1) 0) as [Hneg|Hpos];
    [discriminate|].
  cbn [snd]. intros H. inversion H; subst out; clear H.
  split; [apply rows_loop_length|]. split.
  - intros j c Hc. now rewrite rows_loop_other_columns.
  - intros j Hj. rewrite rows_loop_other_rows; [reflexivity|]. left. lia.
Qed.

(** With a start row below 1 the handler stops on an exception at the
    first row it reads: no file is made, nothing was translated, the
    engine was not called, and the state [isGenerating] is left true, which
    keeps the upload button disabled. *)
Theorem start_row_below_one_makes_no_file (sched : schedule)
    (jsonData : grid) (st : app) :
  (startRow (rendered st) < 1)%Z ->
  snd (handleFileUpload sched jsonData st) = None
  /\ isGenerating (pending (fst (handleFileUpload sched jsonData st))) = true
  /\ translations (pending (fst (handleFileUpload sched jsonData st)))
     = translations (pending st)
  /\ calls (fst (handleFileUpload sched jsonData st)) = calls st.
Proof.
  intros H. unfold handleFileUpload.
  destruct (Z.ltb_spec (startRow (rendered st) - 1) 0); [|lia].
  repeat split; reflexivity.
Qed.

(** *** Column names that name no cell *)

Lemma row_get_no_cell (r : row) (index : option Z) :
  (forall z, index = Some z -> (z < 0)%Z) -> row_get r index = None.
Proof.
  intros H. unfold row_get. destruct index as [z|]; [|reflexivity].
  specialize (H z eq_refl). destruct (Z.ltb_spec z 0); [reflexivity|lia].
Qed.

Lemma rows_loop_no_source (cl : ui_state) (sched : schedule) (todo i : nat)
    (rs : run_state) :
  (forall z, columnIndex (sourceColumn cl) = Some z -> (z < 0)%Z) ->
  rs_grid (rows_loop cl sched todo i rs) = rs_grid rs
  /\ translations (pending (rs_app (rows_loop cl sched todo i rs)))
     = translations (pending (rs_app rs)).
Proof.
  intros H. revert i rs; induction todo as [|todo IH]; intros i rs;
    [now split|].
  simpl. destruct (isGeneratingRef (rs_app rs)); simpl; [|now split].
  destruct (IH (S i) (boundary (sched i) (row_body cl (sched i) i rs)))
    as [Hg Ht].
  rewrite Hg, Ht. unfold boundary. cbn [rs_grid rs_app].
  rewrite deliver_translations.
  rewrite row_body_falsy
    by (rewrite (row_get_no_cell _ _ H); reflexivity).
  now split.
Qed.

(** When the source column name is empty, or starts with a character
    before [A], no cell is ever read: the rows handed to the writer of the
    file are the rows of the input and no translation is added. *)
Theorem unreadable_source_column_translates_nothing (sched : schedule)
    (jsonData : grid) (st : app) :
  (forall z, columnIndex (sourceColumn (rendered st)) = Some z ->
             (z < 0)%Z) ->
  (1 <= startRow (rendered st))%Z ->
  snd (handleFileUpload sched jsonData st) = Some jsonData
  /\ translations (pending (fst (handleFileUpload sched jsonData st)))
     = translations (pending st).
Proof.
  intros H Hs. unfold handleFileUpload.
  destruct (Z.ltb_spec (startRow (rendered st) - 1) 0); [lia|].
  cbn [fst snd].
  destruct (rows_loop_no_source (rendered st) sched
              (length jsonData - Z.to_nat (startRow (rendered st) - 1))
              (Z.to_nat (startRow (rendered st) - 1))
              (run_start jsonData st) H) as [Hg Ht].
  split; [now rewrite Hg|].
  change (translations (pending (setIsGenerating false ?x)))
    with (translations (pending x)).
  exact Ht.
Qed.

End Sheet.

(** ** The list of translations after a run *)

Section Recent.
Context {host : JSHost} {web_llm : EngineInterface}.



(** *** A run that nothing interrupts *)

Lemma onSend_totalRows (cl : ui_state) (il : interleaving) (v : value)
    (st : app) :
  totalRows (pending (snd (onSend cl il v st))) = totalRows (pending st).
Proof.
  apply (onSend_keeps (fun st => totalRows (pending st)));
    try reflexivity; intros; clear; revert st0.
  - induction (during_load il) as [|ev evs IH]; intros st0; [reflexivity|].
    change (deliver (ev :: evs) st0) with (deliver evs (deliver1 ev st0)).
    rewrite IH. destruct ev; simpl; [reflexivity|].
    destruct (isGenerating (rendered st0)); [|reflexivity].
    unfold onStop. now destruct (engine (rendered st0)).
  - induction (during_generation il) as [|ev evs IH]; intros st0;
      [reflexivity|].
    change (deliver (ev :: evs) st0) with (deliver evs (deliver1 ev st0)).
    rewrite IH. destruct ev; simpl; [reflexivity|].
    destruct (isGenerating (rendered st0)); [|reflexivity].
    unfold onStop. now destruct (engine (rendered st0)).
Qed.

Lemma row_body_counters (cl : ui_state) (il : interleaving) (i : nat)
    (rs : run_state) :
  currentRow (pending (rs_app (row_body cl il i rs))) = i + 1
  /\ totalRows (pending (rs_app (row_body cl il i rs)))
     = totalRows (pending (rs_app rs)).
Proof.
  unfold row_body.
  destruct (row_get (nth i (rs_grid rs) []) (columnIndex (sourceColumn cl)))
    as [v|]; [|now split].
  destruct (truthy (Some v)); [|now split].
  pose proof (onSend_totalRows cl il v (rs_app rs)) as H.
  destruct (onSend cl il v (rs_app rs)) as [response st1].
  split; [reflexivity|exact H].
Qed.

Lemma quiet_loop_counters (cl : ui_state) (todo i : nat) (rs : run_state) :
  isGeneratingRef (rs_app rs) = true ->
  currentRow (pending (rs_app (rows_loop cl quiet (S todo) i rs)))
  = i + S todo
  /\ totalRows (pending (rs_app (rows_loop cl quiet (S todo) i rs)))
     = totalRows (pending (rs_app rs)).
Proof.
  revert i rs; induction todo as [|todo IH]; intros i rs H.
  - destruct (quiet_loop_step cl 0 i rs H) as [E _]. rewrite E.
    cbn [rows_loop].
    destruct (row_body_counters cl (quiet i) i rs) as [Hc Ht].
    rewrite Hc, Ht. split; [lia|reflexivity].
  - destruct (quiet_loop_step cl (S todo) i rs H) as [E F]. rewrite E.
    destruct (IH (S i) (row_body cl (quiet i) i rs) F) as [Hc Ht].
    destruct (row_body_counters cl (quiet i) i rs) as [_ Ht'].
    rewrite Hc, Ht, Ht'. split; [lia|reflexivity].
Qed.

(** A run that no Stop and no commit reaches, from a start row inside the
    sheet, goes to the last row, whatever the engine answers or throws:
    the rows are handed to the writer of the file, and the two counters
    end equal to the number of rows, with the state [isGenerating] false. *)
Theorem quiet_run_reaches_the_last_row (jsonData : grid) (st : app) :
  (1 <= startRow (rendered st))%Z ->
  (startRow (rendered st) <= Z.of_nat (length jsonData))%Z ->
  snd (handleFileUpload quiet jsonData st) <> None
  /\ currentRow (pending (fst (handleFileUpload quiet jsonData st)))
     = length jsonData
  /\ totalRows (pending (fst (handleFileUpload quiet jsonData st)))
     = length jsonData
  /\ isGenerating (pending (fst (handleFileUpload quiet jsonData st)))
     = false.
Proof.
  intros H1 H2. unfold handleFileUpload.
  destruct (Z.ltb_spec (startRow (rendered st) - 1) 0); [lia|].
  cbn [fst snd]. split; [discriminate|].
  set (first := Z.to_nat (startRow (rendered st) - 1)).
  assert (Hn : length jsonData - first = S (length jsonData - first - 1))
    by (unfold first; lia).
  rewrite Hn.
  destruct (quiet_loop_counters (rendered st) (length jsonData - first - 1)
              first (run_start jsonData st) eq_refl) as [Hc Ht].
  change (currentRow (pending (setIsGenerating false ?x)))
    with (currentRow (pending x)).
  change (totalRows (pending (setIsGenerating false ?x)))
    with (totalRows (pending x)).
  rewrite Hc, Ht. split; [unfold first; lia|]. split; reflexivity.
Qed.

End Recent.

(** ** [checkBrowser] *)

Lemma starts_with_ci_same_letters (pattern w post : jsstring) :
  map ascii_upper w = map ascii_upper pattern ->
  starts_with_ci pattern (w ++ post) = true.
Proof.
  revert w; induction pattern as [|p pattern IH]; intros [|c w] H;
    simpl in *; try reflexivity; try discriminate.
  inversion H as [[Hc Hw]]. rewrite Hc, N.eqb_refl. simpl. now apply IH.
Qed.

Lemma contains_ci_after (pattern pre s : jsstring) :
  starts_with_ci pattern s = true -> contains_ci pattern (pre ++ s) = true.
Proof.
  intros H. induction pre as [|c pre IH].
  - destruct s; simpl in *; now rewrite H.
  - simpl. rewrite IH. apply orb_true_r.
Qed.

Section BrowserProperties.
Context {host : JSHost} {web_llm : EngineInterface}.

(** [checkBrowser] answers true exactly for a user agent with no mobile
    word and no Firefox word, that names Chrome whenever it names Safari,
    on a page where [window.chrome] exists; it then leaves the application
    as it was. When it answers false it has set an error message. *)
Theorem checkBrowser_verdict (userAgent : jsstring) (window_chrome : bool)
    (st : app) :
  (fst (checkBrowser userAgent window_chrome st) = true
   <-> test_any_ci mobile_words userAgent = false
       /\ test_any_ci firefox_words userAgent = false
       /\ (test_any_ci safari_words userAgent = true ->
           test_any_ci chrome_words userAgent = true)
       /\ window_chrome = true)
  /\ (fst (checkBrowser userAgent window_chrome st) = true ->
      snd (checkBrowser userAgent window_chrome st) = st)
  /\ (fst (checkBrowser userAgent window_chrome st) = false ->
      errorBrowserMessage
        (pending (snd (checkBrowser userAgent window_chrome st))) <> None).
Proof.
  unfold checkBrowser.
  destruct (test_any_ci mobile_words userAgent);
    [cbn; repeat split; try discriminate; intros (H & _); discriminate|].
  destruct (test_any_ci firefox_words userAgent);
    [cbn; repeat split; try discriminate; intros (_ & H & _); discriminate|].
  destruct (test_any_ci safari_words userAgent);
    destruct (test_any_ci chrome_words userAgent);
    destruct window_chrome; cbn; repeat split; try discriminate;
    try reflexivity; try (intros (_ & _ & H & H'); try discriminate;
                          specialize (H eq_refl); discriminate).
Qed.

(** A user agent that holds one of the mobile words, in any mix of upper
    and lower case and anywhere in it, is refused with the message for
    mobile phones, whatever else it names (Chrome or Firefox included)
    and whether [window.chrome] exists or not. *)
Theorem mobile_word_anywhere_is_refused (word w pre post : jsstring)
    (window_chrome : bool) (st : app) :
  In word mobile_words ->
  map ascii_upper w = map ascii_upper word ->
  checkBrowser (pre ++ w ++ post) window_chrome st
  = (false,
     setErrorBrowserMessage
       (Some (js "Mobile phones are not compatible with WebGPU.")) st).
Proof.
  intros Hin Hw. unfold checkBrowser.
  replace (test_any_ci mobile_words (pre ++ w ++ post)) with true;
    [reflexivity|].
  symmetry. unfold test_any_ci. apply existsb_exists.
  exists word. split; [exact Hin|].
  apply contains_ci_after. now apply starts_with_ci_same_letters.
Qed.

End BrowserProperties.

(** ** The case mapping of [integer_host] *)






(** * The further properties on concrete inputs *)



Lemma other_strings_witness :
  onSend (rendered (page says_bonjour true)) (quiet 0) (strv "BCD-7")
         (page says_bonjour true)
  = (Some (js "BCD-7"), page says_bonjour true).
Proof.
  apply (other_strings_come_back
           (rendered (page says_bonjour true)) (quiet 0) (js "BCD-7")
           (page says_bonjour true)).
  - discriminate.
  - reflexivity.
Defined.

Lemma no_result_error_witness :
  errorBrowserMessage
    (pending (snd (onSend (rendered (page fails_first true)) (quiet 0)
                     (strv "hello") (page fails_first true)))) <> None
  /\ isGenerating
       (pending (snd (onSend (rendered (page fails_first true)) (quiet 0)
                        (strv "hello") (page fails_first true)))) = false.
Proof.
  pose proof (surjective_pairing
                (onSend (rendered (page fails_first true)) (quiet 0)
                   (strv "hello") (page fails_first true))) as P.
  assert (F : fst (onSend (rendered (page fails_first true)) (quiet 0)
                     (strv "hello") (page fails_first true)) = None)
    by reflexivity.
  rewrite F in P.
  apply (no_result_leaves_an_error
           (rendered (page fails_first true)) (quiet 0) (js "hello")
           (page fails_first true) _).
  - discriminate.
  - exact P.
Defined.



Lemma closure_without_engine_witness :
  exists rest : list engine_call,
    calls (snd (onSend (rendered (page says_bonjour false)) (quiet 0)
                  (strv "hello") (page says_bonjour false)))
    = calls (page says_bonjour false) ++ CallCreateEngine :: rest.
Proof.
  apply (closure_without_engine_loads_again
           (rendered (page says_bonjour false)) (quiet 0) (js "hello")
           (page says_bonjour false)); reflexivity.
Defined.

Lemma engine_creation_failure_witness :
  fst (onSend (rendered unloaded_page) (quiet 0) (strv "hello")
         unloaded_page) = None
  /\ isFetching
       (pending (snd (onSend (rendered unloaded_page) (quiet 0)
                        (strv "hello") unloaded_page))) = true.
Proof.
  destruct (@engine_creation_failure integer_host unloadable_engine
              (rendered unloaded_page) (quiet 0) (js "hello")
              unloaded_page (js "Error: no adapter") tt
              eq_refl eq_refl eq_refl eq_refl)
    as (R & _ & F & _).
  split; [exact R|exact F].
Defined.


Lemma run_frame_witness :
  row_get (nth 1 (rs_grid
                    (rows_loop (rendered (page fails_first true)) quiet 3 1
                       (run_start three_rows (page fails_first true)))) [])
          (Some 1%Z)
  = str "hello".
Proof.
  destruct (run_changes_only_destination_cells quiet three_rows
              (rs_grid
                 (rows_loop (rendered (page fails_first true)) quiet 3 1
                    (run_start three_rows (page fails_first true))))
              (page fails_first true) eq_refl) as (_ & C & _).
  rewrite (C 1 (Some 1%Z)); [reflexivity|discriminate].
Defined.

Lemma start_row_below_one_witness :
  snd (handleFileUpload quiet five_rows (configured_page "B" "C" 0)) = None
  /\ isGenerating
       (pending (fst (handleFileUpload quiet five_rows
                        (configured_page "B" "C" 0)))) = true.
Proof.
  destruct (start_row_below_one_makes_no_file quiet five_rows
              (configured_page "B" "C" 0)) as (N & G & _).
  - reflexivity.
  - split; [exact N|exact G].
Defined.

Lemma unreadable_source_column_witness :
  snd (handleFileUpload quiet five_rows (configured_page "" "C" 2))
  = Some five_rows.
Proof.
  apply (unreadable_source_column_translates_nothing quiet five_rows
           (configured_page "" "C" 2)).
  - intros z H. discriminate H.
  - discriminate.
Defined.


Lemma quiet_run_witness :
  currentRow
    (pending (fst (handleFileUpload quiet five_rows
                     (page says_bonjour true))))
  = length five_rows.
Proof.
  destruct (quiet_run_reaches_the_last_row five_rows
              (page says_bonjour true)) as (_ & C & _).
  - discriminate.
  - discriminate.
  - exact C.
Defined.

Lemma mobile_word_witness :
  checkBrowser (js "Mozilla/5.0 (Linux; " ++ js "aNdRoId" ++ js " 14) Chrome/124")
               true (page says_bonjour true)
  = (false,
     setErrorBrowserMessage
       (Some (js "Mobile phones are not compatible with WebGPU."))
       (page says_bonjour true)).
Proof.
  apply (mobile_word_anywhere_is_refused (js "Android") (js "aNdRoId")
           (js "Mozilla/5.0 (Linux; ") (js " 14) Chrome/124") true
           (page says_bonjour true)).
  - right. left. reflexivity.
  - reflexivity.
Defined.

(** The user agent of Chrome on a desktop names Safari and Chrome: it is
    accepted where [window.chrome] exists. *)
Lemma chrome_desktop_is_accepted :
  checkBrowser chrome_desktop true (page says_bonjour true)
  = (true, page says_bonjour true).
Proof. reflexivity. Qed.
